(** * pmc_02_model2b: bulk thermodynamic-equilibrium ice properties

    Shallow embedding of [src/Test Files/pmc_02_model2b.py], a Python
    transliteration of the IDL routine [pmc_0d_model2b].

    Modelling conventions.
    - float64 values are idealised as real numbers ([R]); [numpy.exp],
      [numpy.log], [numpy.log10] and [**] are the real functions [exp], [ln],
      [ln x / ln 10] and [Rpower].  The literals written [(1.0e6.0)],
      [(1.0e2.0)] and [(1.0e-6.0)] in the source are read as [1e6], [1e2] and
      [1e-6].  Division is the total division of [R]; [inf] and [nan] are
      not modelled, so the model of a level speaks for the code only where
      [p[i] <> 0], and the statements on the values a level stores carry
      that hypothesis.
    - [numpy.zeroes] is read as written: numpy has no such attribute (the
      function is [numpy.zeros]), so the allocation of lines 71-77 raises
      [AttributeError] and the routine stops there ([allocate],
      [pmc_0d_model2b]).  The loop over altitude and the layer summary are
      modelled as stages of their own, over a store given as input
      ([level_loop], [after_allocation]); [init_store nz], the arrays those
      lines are written to allocate, is such an input and not a value the
      routine ever builds.
    - expressions are read with Python's grammar: [|] and [&] bind tighter
      than comparisons, and comparisons chain ([a < b > c] is
      [a < b and b > c], with [b] evaluated once).
    - numpy defines [&] on booleans and integers only; on a float64 operand
      it raises [TypeError].
    - names are case sensitive: [Zmax] and [zmax] are two variables.
    - the output arrays are mutated in place, so the level loop is a state
      and exception monad over the store of the seven arrays.
    - [constdz], the keyword of the IDL signature, is an optional input. *)

From Stdlib Require Import Reals Lra ZArith List Lia.
From stdpp Require Import base list.

Open Scope R_scope.

(** ** Exceptions and results *)

Inductive pyerr : Type :=
| TypeError | IndexError | NameError | ValueError | AttributeError | SystemExit.

Inductive result (A : Type) : Type :=
| Ok (a : A)
| Raise (e : pyerr).
Arguments Ok {A} a.
Arguments Raise {A} e.

Definition rbind {A B} (r : result A) (f : A -> result B) : result B :=
  match r with
  | Ok a => f a
  | Raise e => Raise e
  end.

#[global] Instance result_ret : MRet result := fun A a => Ok a.
#[global] Instance result_bind : MBind result := fun A B f r => rbind r f.

(** ** Values met by the bitwise operators *)

Inductive pyval : Type :=
| VInt (n : Z)
| VFloat (x : R)
| VArr (a : list R).

(** [a & b]: defined for two integers, [TypeError] as soon as one operand is
    a float or a float array. *)
Definition py_and (a b : pyval) : result pyval :=
  match a, b with
  | VInt x, VInt y => Ok (VInt (Z.land x y))
  | _, _ => Raise TypeError
  end.

(** A scalar read as a number; an array has no single value. *)
Definition py_num (v : pyval) : result R :=
  match v with
  | VInt n => Ok (IZR n)
  | VFloat x => Ok x
  | VArr _ => Raise ValueError
  end.

(** ** Comparisons on reals as booleans *)

Definition Rltb (x y : R) : bool := if Rlt_dec x y then true else false.
Definition Rleb (x y : R) : bool := if Rle_dec x y then true else false.
Definition Rgtb (x y : R) : bool := Rltb y x.
Definition Rgeb (x y : R) : bool := Rleb y x.
Definition Reqb (x y : R) : bool := if Req_dec_T x y then true else false.

(** ** Arrays *)

(** [a[i]] for a natural index. *)
Definition index (a : list R) (i : nat) : result R :=
  match a !! i with
  | Some x => Ok x
  | None => Raise IndexError
  end.

(** [a[i]] for a signed index: a negative index counts from the end. *)
Definition py_index (a : list R) (i : Z) : result R :=
  let n := Z.of_nat (length a) in
  if (0 <=? i)%Z then index a (Z.to_nat i)
  else if (- n <=? i)%Z then index a (Z.to_nat (n + i))
  else Raise IndexError.

(** [mask.nonzero()[0]]: the positions that hold [True], in order. *)
Fixpoint nonzero_from (i : nat) (mask : list bool) : list nat :=
  match mask with
  | [] => []
  | b :: r => if b then i :: nonzero_from (S i) r else nonzero_from (S i) r
  end.

Definition nonzero (mask : list bool) : list nat := nonzero_from 0 mask.

(** [a[k]] for an index array [k]. *)
Fixpoint take_idx (a : list R) (k : list nat) : result (list R) :=
  match k with
  | [] => Ok []
  | i :: r =>
      x ← index a i;
      xs ← take_idx a r;
      Ok (x :: xs)
  end.

(** [min(a)] and [max(a)]; an empty argument raises [ValueError]. *)
Definition py_min (a : list R) : result R :=
  match a with
  | [] => Raise ValueError
  | x :: r => Ok (fold_left Rmin r x)
  end.

Definition py_max (a : list R) : result R :=
  match a with
  | [] => Raise ValueError
  | x :: r => Ok (fold_left Rmax r x)
  end.

(** ** Constants *)

Definition Mww : R := 18.0.
Definition di : R := 0.93.
Definition R_gas : R := 8.314.
Definition Sti : R := 0.12.

(** ** Housekeeping: the selector check

    [if (vpop < 1 | vpop > 3)] is the chain [vpop < (1 | vpop) > 3]. *)
Definition vpop_rejected (vpop : Z) : bool :=
  let m := Z.lor 1 vpop in
  (vpop <? m)%Z && (m >? 3)%Z.

(** ** Saturation vapor pressure over ice

    The three guarded assignments [if (vpop == n): ... = f_n(T)], written
    once for the table ([px]) and once per level ([p_ice[i]]); [None] when no
    guard holds and nothing is assigned. *)
Definition log10 (x : R) : R := ln x / ln 10.

Definition sat_pressure (vpop : Z) : option (R -> R) :=
  if (vpop =? 1)%Z then
    Some (fun T => 0.01 * exp (9.550426 - 5723.265 / T + 3.53068 * ln T - 0.00728332 * T))
  else if (vpop =? 2)%Z then
    Some (fun T => 0.01 * Rpower 10 (14.88 - 3059.0 / T))
  else if (vpop =? 3)%Z then
    Some (fun T => 0.01 * exp (28.868 - 6132.935 / T))
  else None.

(** [tx = numpy.arange(300) * 3. + 50.] *)
Definition tx : list R := (fun k : nat => INR k * 3 + 50) <$> seq 0 300.

(** [px], bound only when one of the three guards holds. *)
Definition px (vpop : Z) : option (list R) :=
  match sat_pressure vpop with
  | Some f => Some (f <$> tx)
  | None => None
  end.

(** ** Inputs and the store of output arrays *)

Record profile : Type := Profile {
  z : list R;
  t : list R;
  p : list R;
  h2o : list R
}.

Record store : Type := Store {
  t_ice : list R;
  p_ice : list R;
  s_ice : list R;
  v_ice : list R;
  m_ice : list R;
  h2o_sat : list R;
  h2o_ice : list R
}.

(** The store lines 71-77 are written to allocate: six arrays of [nz] zeros
    and [h2o_sat] filled with 999, that is what they yield with
    [numpy.zeros] in place of [numpy.zeroes].  The routine never builds it
    (see [allocate]); it is an input store for the stages that follow. *)
Definition init_store (nz : nat) : store :=
  {| t_ice := replicate nz 0;
     p_ice := replicate nz 0;
     s_ice := replicate nz 0;
     v_ice := replicate nz 0;
     m_ice := replicate nz 0;
     h2o_sat := replicate nz 999;
     h2o_ice := replicate nz 0 |}.

Definition set_t_ice (i : nat) (x : R) (s : store) : store :=
  Store (<[i := x]> (t_ice s)) (p_ice s) (s_ice s) (v_ice s) (m_ice s) (h2o_sat s) (h2o_ice s).
Definition set_p_ice (i : nat) (x : R) (s : store) : store :=
  Store (t_ice s) (<[i := x]> (p_ice s)) (s_ice s) (v_ice s) (m_ice s) (h2o_sat s) (h2o_ice s).
Definition set_s_ice (i : nat) (x : R) (s : store) : store :=
  Store (t_ice s) (p_ice s) (<[i := x]> (s_ice s)) (v_ice s) (m_ice s) (h2o_sat s) (h2o_ice s).
Definition set_v_ice (i : nat) (x : R) (s : store) : store :=
  Store (t_ice s) (p_ice s) (s_ice s) (<[i := x]> (v_ice s)) (m_ice s) (h2o_sat s) (h2o_ice s).
Definition set_m_ice (i : nat) (x : R) (s : store) : store :=
  Store (t_ice s) (p_ice s) (s_ice s) (v_ice s) (<[i := x]> (m_ice s)) (h2o_sat s) (h2o_ice s).
Definition set_h2o_sat (i : nat) (x : R) (s : store) : store :=
  Store (t_ice s) (p_ice s) (s_ice s) (v_ice s) (m_ice s) (<[i := x]> (h2o_sat s)) (h2o_ice s).
Definition set_h2o_ice (i : nat) (x : R) (s : store) : store :=
  Store (t_ice s) (p_ice s) (s_ice s) (v_ice s) (m_ice s) (h2o_sat s) (<[i := x]> (h2o_ice s)).

(** ** The state and exception monad of the level loop

    A raised exception leaves the store as it was mutated so far. *)
Definition M (A : Type) : Type := store -> store * result A.

Definition m_ret {A} (a : A) : M A := fun s => (s, Ok a).
Definition m_bind {A B} (m : M A) (f : A -> M B) : M B :=
  fun s => match m s with
           | (s', Ok a) => f a s'
           | (s', Raise e) => (s', Raise e)
           end.
Definition lift {A} (r : result A) : M A := fun s => (s, r).
Definition write (f : store -> store) : M unit := fun s => (f s, Ok tt).
Definition read (a : store -> list R) (i : nat) : M R := fun s => (s, index (a s) i).

#[global] Instance M_ret : MRet M := @m_ret.
#[global] Instance M_bind : MBind M := fun A B f m => m_bind m f.

(** ** Frost point: bracket search and interpolation *)

(** [k = (px < p_h2o).nonzero()[0]; if len(k) > 0: (px[k[n-1]], tx[k[n-1]])];
    the initial [p1 = 0], [t1 = 0] are Python integers. *)
Definition bracket_below (pxs txs : list R) (p_h2o : R) : result (pyval * pyval) :=
  let k := nonzero ((fun x => Rltb x p_h2o) <$> pxs) in
  match last k with
  | Some j =>
      p1 ← index pxs j;
      t1 ← index txs j;
      Ok (VFloat p1, VFloat t1)
  | None => Ok (VInt 0, VInt 0)
  end.

(** [k = (px >= p_h2o).nonzero()[0]; if len(k) > 0: (px[k[0]], tx[k[0]])]. *)
Definition bracket_above (pxs txs : list R) (p_h2o : R) : result (pyval * pyval) :=
  let k := nonzero ((fun x => Rgeb x p_h2o) <$> pxs) in
  match head k with
  | Some j =>
      p2 ← index pxs j;
      t2 ← index txs j;
      Ok (VFloat p2, VFloat t2)
  | None => Ok (VInt 0, VInt 0)
  end.

(** The guard
    [p_h2o >= min(px) & p_h2o <= max(px) & p1 > 0 & p2 > 0], that is the
    chain [p_h2o >= (min(px) & p_h2o) <= (max(px) & p1) > (0 & p2) > 0],
    evaluated from the left and stopping at the first false link. *)
Definition frost_guard (pxs : list R) (p_h2o : R) (p1 p2 : pyval) : result bool :=
  lo ← py_min pxs;
  a ← py_and (VFloat lo) (VFloat p_h2o);
  a' ← py_num a;
  if negb (Rgeb p_h2o a') then Ok false else
  hi ← py_max pxs;
  b ← py_and (VFloat hi) p1;
  b' ← py_num b;
  if negb (Rleb a' b') then Ok false else
  c ← py_and (VInt 0) p2;
  c' ← py_num c;
  if negb (Rgtb b' c') then Ok false else
  Ok (Rgtb c' 0).

(** [dsds] and the value assigned to [t_ice[i]]. *)
Definition dsds (p1 p2 p_h2o : R) : R :=
  (log10 p2 - log10 p_h2o) / (log10 p2 - log10 p1).

Definition interp (p1 t1 p2 t2 p_h2o : R) : R :=
  1 / (1 / t2 - dsds p1 p2 p_h2o * (1 / t2 - 1 / t1)).

(** ** The body of the loop over altitude *)

(** The divisions are those of [R].  At [p[i] = 0] numpy stores [inf] in
    [h2o_sat[i]] and skips the branch [q_xs > 0], which this model does not
    follow: what it says of the values stored at a level holds for
    [p[i] <> 0]. *)

Definition level (pr : profile) (vpop : Z) (i : nat) : M unit :=
  ti ← lift (index (t pr) i);
  if Rgtb ti 0 then
    _ ← match sat_pressure vpop with
        | Some f => write (set_p_ice i (f ti))
        | None => mret tt
        end;
    pice ← read p_ice i;
    pi ← lift (index (p pr) i);
    _ ← write (set_h2o_sat i (1.0e6 * pice / pi));
    hi ← lift (index (h2o pr) i);
    hsat ← read h2o_sat i;
    _ ← write (set_s_ice i (hi / hsat));
    let q_xs := hi - hsat in
    _ ← (if Rgtb q_xs 0.0 then
           let n_xs := pi * 1.0e2 * q_xs * 1.0e-6 / (R_gas * ti) in
           _ ← write (set_v_ice i (1.0e6 * n_xs * Mww / di));
           _ ← write (set_m_ice i (1e9 * n_xs * Mww));
           write (set_h2o_ice i q_xs)
         else mret tt);
    let p_h2o := pi * hi * 1.0e-6 in
    pxs ← lift (match px vpop with Some l => Ok l | None => Raise NameError end);
    lower ← lift (bracket_below pxs tx p_h2o);
    upper ← lift (bracket_above pxs tx p_h2o);
    g ← lift (frost_guard pxs p_h2o lower.1 upper.1);
    if (g : bool) then
      p1 ← lift (py_num lower.1);
      t1 ← lift (py_num lower.2);
      p2 ← lift (py_num upper.1);
      t2 ← lift (py_num upper.2);
      write (set_t_ice i (interp p1 t1 p2 t2 p_h2o))
    else mret tt
  else mret tt.

(** [for i in range(0, nz)], stopping at the first exception. *)
Fixpoint level_loop (pr : profile) (vpop : Z) (levels : list nat) : M unit :=
  match levels with
  | [] => mret tt
  | i :: r => _ ← level pr vpop i; level_loop pr vpop r
  end.

(** ** Layer summary: Zmax, Ztop, Zbot, IWC *)

(** [bool(mask)]: defined for a single element only. *)
Definition truth (mask : list bool) : result bool :=
  match mask with
  | [b] => Ok b
  | _ => Raise ValueError
  end.

(** [k = (z > 80 & z < 95 & m_ice > 0.).nonzero()[0]], that is the chain
    [z > (80 & z) < (95 & m_ice) > 0.].  Once the first link holds the value
    of the chain is a plain boolean, which has no [nonzero]. *)
Definition layer_select (zs mice : list R) : result (list nat) :=
  a ← py_and (VInt 80) (VArr zs);
  a' ← py_num a;
  let m1 := (fun x => Rgtb x a') <$> zs in
  t1 ← truth m1;
  if negb t1 then Ok (nonzero m1) else
  b ← py_and (VInt 95) (VArr mice);
  _ ← py_num b;
  Raise AttributeError.

(** The scalars of the routine.  The capitalised names are initialised to
    [0.] and are the ones the routine is meant to hand back; the lower-case
    names are bound only inside [if (nk > 0)]. *)
Record scalars : Type := Scalars {
  Zmax : R;
  Ztop : R;
  Zbot : R;
  iwc : R;
  zmax : option R;
  ztop : option R;
  zbot : option R
}.

Definition init_scalars : scalars := Scalars 0 0 0 0 None None None.

(** [l = (m_ice[k] == max(m_ice[k])).nonzero()[0]; l = k[l[0]]; zmax = z[l]] *)
Definition peak_altitude (zs mice : list R) (k : list nat) : result R :=
  mk ← take_idx mice k;
  mx ← py_max mk;
  let l := nonzero ((fun x => Reqb x mx) <$> mk) in
  l0 ← match head l with Some j => Ok j | None => Raise IndexError end;
  lk ← match k !! l0 with Some j => Ok j | None => Raise IndexError end;
  index zs lk.

(** [dz = abs(z[k[i]+1] - z[k[i]-1]) * 0.5] *)
Definition centered_dz (zs : list R) (ki : nat) : result R :=
  a ← py_index zs (Z.of_nat ki + 1);
  b ← py_index zs (Z.of_nat ki - 1);
  Ok (Rabs (a - b) * 0.5).

(** One turn of [for i in range(0, nk)]; the state is [(dz, iwc)], with
    [dz] unbound ([None]) until first assigned. *)
Definition integrate_step (zs mice : list R) (constdz : option R) (zmx : R)
    (ki : nat) (st : option R * R) : result (option R * R) :=
  zk ← index zs ki;
  if Rgtb zk (zmx - 2) then
    dz ← match constdz with
         | Some _ => d ← centered_dz zs ki; Ok (Some d)
         | None => Ok st.1
         end;
    mk ← index mice ki;
    d ← match dz with Some d => Ok d | None => Raise NameError end;
    Ok (dz, st.2 + mk * d)
  else Ok st.

Fixpoint integrate_loop (zs mice : list R) (constdz : option R) (zmx : R)
    (k : list nat) (st : option R * R) : result (option R * R) :=
  match k with
  | [] => Ok st
  | ki :: r =>
      st' ← integrate_step zs mice constdz zmx ki st;
      integrate_loop zs mice constdz zmx r st'
  end.

(** [if (constdz is None): dz = abs(z[1] - z[0])], then the loop; returns
    the final [iwc]. *)
Definition integrate (zs mice : list R) (constdz : option R) (zmx : R)
    (k : list nat) (iwc0 : R) : result R :=
  dz0 ← match constdz with
        | None =>
            z1 ← index zs 1;
            z0 ← index zs 0;
            Ok (Some (Rabs (z1 - z0)))
        | Some _ => Ok None
        end;
  st ← integrate_loop zs mice constdz zmx k (dz0, iwc0);
  Ok st.2.

(** The block under [if (nk > 0)]. *)
Definition layer_summary_from (zs mice : list R) (constdz : option R)
    (k : list nat) (sc : scalars) : result scalars :=
  match k with
  | [] => Ok sc
  | _ =>
      zmx ← peak_altitude zs mice k;
      zk ← take_idx zs k;
      ztp ← py_max zk;
      zbt ← py_min zk;
      w ← integrate zs mice constdz zmx k (iwc sc);
      Ok (Scalars (Zmax sc) (Ztop sc) (Zbot sc) w (Some zmx) (Some ztp) (Some zbt))
  end.

Definition layer_summary (zs mice : list R) (constdz : option R) : result scalars :=
  k ← layer_select zs mice;
  layer_summary_from zs mice constdz k init_scalars.

(** ** The routine *)

(** [numpy.zeroes(nz)]: the attribute lookup fails before [nz] is used. *)
Definition numpy_zeroes (nz : nat) : result (list R) := Raise AttributeError.

(** Lines 71-77 as the routine runs them. *)
Definition allocate (nz : nat) : result store :=
  a1 ← numpy_zeroes nz;
  a2 ← numpy_zeroes nz;
  a3 ← numpy_zeroes nz;
  a4 ← numpy_zeroes nz;
  a5 ← numpy_zeroes nz;
  a6 ← numpy_zeroes nz;
  a7 ← numpy_zeroes nz;
  Ok (Store a1 a2 a3 a4 a5 ((fun x => x + 999) <$> a6) a7).

(** Lines 79-195, the stages after the allocation, from the arrays [s0]. *)
Definition after_allocation (pr : profile) (vpop : Z) (constdz : option R)
    (s0 : store) : result (store * scalars) :=
  let nz := length (z pr) in
  match level_loop pr vpop (seq 0 nz) s0 with
  | (_, Raise e) => Raise e
  | (s, Ok _) =>
      sc ← layer_summary (z pr) (m_ice s) constdz;
      Ok (s, sc)
  end.

Definition pmc_0d_model2b (pr : profile) (vpop : Z) (constdz : option R)
    : result (store * scalars) :=
  let nz := length (z pr) in
  if vpop_rejected vpop then Raise SystemExit else
  s0 ← allocate nz;
  after_allocation pr vpop constdz s0.

(** ** Predicates used in the statements *)

(** [preserves P m]: running [m] from a store that satisfies [P] leaves a
    store that satisfies [P], whether [m] returns or raises. *)
Definition preserves {A} (P : store -> Prop) (m : M A) : Prop :=
  forall s, P s -> P (m s).1.

(** Every write of [level] other than the one into [t_ice] keeps [P]. *)
Definition stable_under_solver (P : store -> Prop) (i : nat) : Prop :=
  forall x s, P s ->
    P (set_p_ice i x s) /\ P (set_h2o_sat i x s) /\ P (set_s_ice i x s) /\
    P (set_v_ice i x s) /\ P (set_m_ice i x s) /\ P (set_h2o_ice i x s).

(** [default_at i s]: the entries of index [i] hold their initial values. *)
Definition default_at (i : nat) (s : store) : Prop :=
  t_ice s !! i = Some 0 /\ p_ice s !! i = Some 0 /\ s_ice s !! i = Some 0 /\
  v_ice s !! i = Some 0 /\ m_ice s !! i = Some 0 /\ h2o_ice s !! i = Some 0 /\
  h2o_sat s !! i = Some 999.

(** The formulas as the specification words them. *)
Definition spec_murphy_koop (T : R) : R :=
  0.01 * exp (9.550426 - 5723.265 / T + 3.53068 * ln T - 0.00728332 * T).
Definition spec_mauersberger_krankowsky (T : R) : R :=
  0.01 * Rpower 10 (14.88 - 3059.0 / T).
Definition spec_marti_mauersberger (T : R) : R :=
  0.01 * exp (28.868 - 6132.935 / T).

Definition spec_saturation (selector : Z) (T : R) : R :=
  match selector with
  | 1%Z => spec_murphy_koop T
  | 2%Z => spec_mauersberger_krankowsky T
  | _ => spec_marti_mauersberger T
  end.

(** The guard as the specification words it: all four conditions jointly. *)
Definition spec_frost_guard (pxs : list R) (p_h2o p1 p2 : R) : bool :=
  match py_min pxs, py_max pxs with
  | Ok lo, Ok hi => Rgeb p_h2o lo && Rleb p_h2o hi && Rgtb p1 0 && Rgtb p2 0
  | _, _ => false
  end.

(** [allocated n s]: the seven arrays of [s] have [n] entries. *)
Definition allocated (n : nat) (s : store) : Prop :=
  length (t_ice s) = n /\ length (p_ice s) = n /\ length (s_ice s) = n /\
  length (v_ice s) = n /\ length (m_ice s) = n /\ length (h2o_sat s) = n /\
  length (h2o_ice s) = n.

(** The store a processed level leaves behind: the writes of the
    equilibrium solver, in the order of the loop body. *)
Definition after_level (f : R -> R) (i : nat) (ti pi hi : R) (s : store) : store :=
  let hsat := 1.0e6 * f ti / pi in
  let s1 := set_s_ice i (hi / hsat) (set_h2o_sat i hsat (set_p_ice i (f ti) s)) in
  if Rgtb (hi - hsat) 0.0 then
    let n_xs := pi * 1.0e2 * (hi - hsat) * 1.0e-6 / (R_gas * ti) in
    set_h2o_ice i (hi - hsat)
      (set_m_ice i (1e9 * n_xs * Mww)
         (set_v_ice i (1.0e6 * n_xs * Mww / di) s1))
  else s1.

(** [same_at i s0 s]: the seven arrays of [s] and [s0] agree at index [i]. *)
Definition same_at (i : nat) (s0 s : store) : Prop :=
  t_ice s !! i = t_ice s0 !! i /\ p_ice s !! i = p_ice s0 !! i /\
  s_ice s !! i = s_ice s0 !! i /\ v_ice s !! i = v_ice s0 !! i /\
  m_ice s !! i = m_ice s0 !! i /\ h2o_sat s !! i = h2o_sat s0 !! i /\
  h2o_ice s !! i = h2o_ice s0 !! i.

(** [never_exits m]: [m] never raises [SystemExit]. *)
Definition never_exits {A} (m : M A) : Prop :=
  forall s, (m s).2 <> Raise SystemExit.

(** The ice mass of the selected levels inside the 2 km window, and the
    same weighted level by level with the centered spacing. *)
Definition window_mass (zs mice : list R) (zmx : R) (k : list nat) : R :=
  foldr (fun ki acc =>
           (if Rgtb (default 0 (zs !! ki)) (zmx - 2)
            then default 0 (mice !! ki) else 0) + acc) 0 k.

Definition window_column (zs mice : list R) (zmx : R) (k : list nat) : R :=
  foldr (fun ki acc =>
           (if Rgtb (default 0 (zs !! ki)) (zmx - 2)
            then default 0 (mice !! ki)
                 * (Rabs (default 0 (zs !! S ki) - default 0 (zs !! pred ki)) * 0.5)
            else 0) + acc) 0 k.

(** A profile of two levels, the lower one without temperature. *)
Definition example_profile : profile :=
  Profile [84; 85] [0; 100] [1000; 1000] [8; 8].

(** * Properties *)

(** ** Comparisons *)

Lemma Rltb_true (x y : R) : Rltb x y = true <-> x < y.
Proof. unfold Rltb. destruct (Rlt_dec x y); split; intros; try done. Qed.

Lemma Rleb_true (x y : R) : Rleb x y = true <-> x <= y.
Proof. unfold Rleb. destruct (Rle_dec x y); split; intros; try done. Qed.

Lemma Rgtb_true (x y : R) : Rgtb x y = true <-> y < x.
Proof. apply Rltb_true. Qed.

Lemma Rgeb_true (x y : R) : Rgeb x y = true <-> y <= x.
Proof. apply Rleb_true. Qed.

Lemma Rgtb_false (x y : R) : Rgtb x y = false <-> x <= y.
Proof.
  unfold Rgtb, Rltb. destruct (Rlt_dec y x); split; intros; try done; lra.
Qed.

(** ** Positions of the true entries of a mask *)

Lemma head_nonzero_from (i : nat) (mask : list bool) (j : nat) :
  head (nonzero_from i mask) = Some j ->
  exists n, j = (i + n)%nat /\ mask !! n = Some true /\
            forall m, (m < n)%nat -> mask !! m = Some false.
Proof.
  revert i. induction mask as [|b r IH]; intros i; simpl; [done|].
  destruct b; simpl.
  - intros [= <-]. exists 0%nat. split; [lia|]. split; [done|]. intros m Hm; lia.
  - intros H. destruct (IH _ H) as (n & -> & Hn & Hlt).
    exists (S n). split; [lia|]. split; [done|].
    intros [|m] Hm; [done|]. simpl. apply Hlt. lia.
Qed.

Lemma head_nonzero_from_None (i : nat) (mask : list bool) :
  head (nonzero_from i mask) = None -> forall m, mask !! m <> Some true.
Proof.
  revert i. induction mask as [|b r IH]; intros i; simpl.
  - intros _ m. by rewrite lookup_nil.
  - destruct b; simpl; [done|]. intros H [|m]; [done|]. simpl. by eapply IH.
Qed.

Lemma last_nonzero_from (i : nat) (mask : list bool) (j : nat) :
  last (nonzero_from i mask) = Some j ->
  exists n, j = (i + n)%nat /\ mask !! n = Some true /\
            forall m, (n < m)%nat -> mask !! m <> Some true.
Proof.
  revert i j. induction mask as [|b r IH]; intros i j; simpl; [done|].
  destruct b.
  - rewrite last_cons. destruct (last (nonzero_from (S i) r)) as [j'|] eqn:E.
    + intros [= <-]. destruct (IH _ _ E) as (n & -> & Hn & Hgt).
      exists (S n). split; [lia|]. split; [done|].
      intros [|m] Hm; [lia|]. simpl. apply Hgt. lia.
    + intros [= <-]. exists 0%nat. split; [lia|]. split; [done|].
      intros [|m] Hm; [lia|]. simpl.
      assert (head (nonzero_from (S i) r) = None) as Hh.
      { destruct (nonzero_from (S i) r); [done|]. by rewrite last_cons in E; destruct (last l). }
      by eapply head_nonzero_from_None.
  - intros H. destruct (IH _ _ H) as (n & -> & Hn & Hgt).
    exists (S n). split; [lia|]. split; [done|].
    intros [|m] Hm; [lia|]. simpl. apply Hgt. lia.
Qed.

Lemma last_nonzero_from_None (i : nat) (mask : list bool) :
  last (nonzero_from i mask) = None -> forall m, mask !! m <> Some true.
Proof.
  intros H. apply (head_nonzero_from_None i).
  destruct (nonzero_from i mask) as [|x l]; [done|].
  rewrite last_cons in H. by destruct (last l).
Qed.

(** ** Saturation curves *)

Lemma ln_le_pred (y : R) : 0 < y -> ln y <= y - 1.
Proof.
  intros Hy.
  destruct (Req_dec y 1) as [->|Hne].
  - rewrite ln_1. lra.
  - assert (H : 1 + (y - 1) < exp (y - 1)) by (apply exp_ineq1; lra).
    left. apply exp_lt_inv. rewrite exp_ln by assumption. lra.
Qed.

Lemma ln_diff_lower (a b : R) : 0 < a -> a < b -> (b - a) / b <= ln b - ln a.
Proof.
  intros Ha Hab.
  assert (Hb : 0 < b) by lra.
  assert (H := ln_le_pred (a / b) ltac:(apply Rdiv_lt_0_compat; lra)).
  unfold Rdiv in H. rewrite ln_mult in H by (try apply Rinv_0_lt_compat; lra).
  rewrite ln_Rinv in H by lra.
  replace ((b - a) / b) with (1 - a * / b) by (field; lra). lra.
Qed.

Lemma inv_diff (a b : R) : 0 < a -> 0 < b -> / a - / b = (b - a) / (a * b).
Proof. intros. field. lra. Qed.

Lemma murphy_koop_exponent_increasing (Ta Tb : R) :
  50 <= Ta -> Ta < Tb -> Tb <= 1000 ->
  9.550426 - 5723.265 / Ta + 3.53068 * ln Ta - 0.00728332 * Ta
  < 9.550426 - 5723.265 / Tb + 3.53068 * ln Tb - 0.00728332 * Tb.
Proof.
  intros Ha Hab Hb.
  assert (Hl := ln_diff_lower Ta Tb ltac:(lra) Hab).
  assert (Hi := inv_diff Ta Tb ltac:(lra) ltac:(lra)).
  assert (H1 : (Tb - Ta) / 1000 <= (Tb - Ta) / Tb).
  { unfold Rdiv. apply Rmult_le_compat_l; [lra|]. apply Rinv_le_contravar; lra. }
  assert (H2 : (Tb - Ta) / 1000000 <= (Tb - Ta) / (Ta * Tb)).
  { unfold Rdiv. apply Rmult_le_compat_l; [lra|]. apply Rinv_le_contravar; nra. }
  unfold Rdiv in *. lra.
Qed.

Lemma neg_inv_increasing (c Ta Tb : R) :
  0 < c -> 0 < Ta -> Ta < Tb -> - c / Ta < - c / Tb.
Proof.
  intros Hc Ha Hab.
  assert (H : / Tb < / Ta) by (apply Rinv_lt_contravar; nra).
  unfold Rdiv. nra.
Qed.

Lemma murphy_koop_increasing (Ta Tb : R) :
  50 <= Ta -> Ta < Tb -> Tb <= 1000 ->
  spec_murphy_koop Ta < spec_murphy_koop Tb.
Proof.
  intros Ha Hab Hb. unfold spec_murphy_koop.
  apply Rmult_lt_compat_l; [lra|]. apply exp_increasing.
  by apply murphy_koop_exponent_increasing.
Qed.

Lemma mauersberger_krankowsky_increasing (Ta Tb : R) :
  0 < Ta -> Ta < Tb ->
  spec_mauersberger_krankowsky Ta < spec_mauersberger_krankowsky Tb.
Proof.
  intros Ha Hab. unfold spec_mauersberger_krankowsky.
  apply Rmult_lt_compat_l; [lra|]. apply Rpower_lt; [lra|].
  assert (H := neg_inv_increasing 3059.0 Ta Tb). unfold Rdiv in *. lra.
Qed.

Lemma marti_mauersberger_increasing (Ta Tb : R) :
  0 < Ta -> Ta < Tb ->
  spec_marti_mauersberger Ta < spec_marti_mauersberger Tb.
Proof.
  intros Ha Hab. unfold spec_marti_mauersberger.
  apply Rmult_lt_compat_l; [lra|]. apply exp_increasing.
  assert (H := neg_inv_increasing 6132.935 Ta Tb). unfold Rdiv in *. lra.
Qed.

(** The selector picks one of the three curves, or nothing. *)
Lemma sat_pressure_cases (vpop : Z) (f : R -> R) :
  sat_pressure vpop = Some f ->
  (vpop = 1%Z /\ f = spec_murphy_koop) \/
  (vpop = 2%Z /\ f = spec_mauersberger_krankowsky) \/
  (vpop = 3%Z /\ f = spec_marti_mauersberger).
Proof.
  unfold sat_pressure. intros Hf.
  destruct (Z.eqb_spec vpop 1); [left|];
    [|destruct (Z.eqb_spec vpop 2); [right; left|];
      [|destruct (Z.eqb_spec vpop 3); [right; right|done]]];
    (split; [done|]); by apply (inj Some) in Hf.
Qed.

(** C7: each of the three curves is strictly increasing in temperature over
    50-1000 K, which contains the tabulated temperatures 50..947. *)
Theorem sat_pressure_increasing (vpop : Z) (f : R -> R) (Ta Tb : R) :
  sat_pressure vpop = Some f ->
  50 <= Ta -> Ta < Tb -> Tb <= 1000 ->
  f Ta < f Tb.
Proof.
  intros Hf Ha Hab Hb.
  destruct (sat_pressure_cases vpop f Hf) as [[_ ->] | [[_ ->] | [_ ->]]].
  - by apply murphy_koop_increasing.
  - apply mauersberger_krankowsky_increasing; [lra | done].
  - apply marti_mauersberger_increasing; [lra | done].
Qed.

Lemma sat_pressure_increasing_witness :
  exists f, sat_pressure 1 = Some f /\ f 50 < f 53.
Proof.
  eexists. split; [reflexivity|].
  apply (sat_pressure_increasing 1 _ 50 53); [reflexivity | lra | lra | lra].
Defined.

Lemma sat_pressure_pos (vpop : Z) (f : R -> R) (T : R) :
  sat_pressure vpop = Some f -> 0 < f T.
Proof.
  intros Hf.
  destruct (sat_pressure_cases vpop f Hf) as [[_ ->] | [[_ ->] | [_ ->]]];
    (apply Rmult_lt_0_compat; [lra | apply exp_pos]).
Qed.

Lemma sat_pressure_valid (vpop : Z) :
  (1 <= vpop <= 3)%Z -> exists f, sat_pressure vpop = Some f.
Proof.
  intros H. assert (vpop = 1 \/ vpop = 2 \/ vpop = 3)%Z as [-> | [-> | ->]] by lia;
    eexists; reflexivity.
Qed.

(** ** The reference table *)

Lemma tx_lookup (k : nat) (T : R) :
  tx !! k = Some T <-> (k < 300)%nat /\ T = INR k * 3 + 50.
Proof.
  unfold tx. rewrite list_lookup_fmap. split.
  - intros H. destruct (seq 0 300 !! k) as [n|] eqn:E; [|done].
    apply lookup_seq in E as [-> Hk]. simpl in H. injection H as <-. done.
  - intros [Hk ->]. by rewrite lookup_seq_lt.
Qed.

Lemma tx_length : length tx = 300%nat.
Proof. unfold tx. by rewrite length_fmap, length_seq. Qed.

Lemma tx_range (k : nat) (T : R) : tx !! k = Some T -> 50 <= T <= 947.
Proof.
  intros [Hk ->]%tx_lookup. rewrite INR_IZR_INZ.
  assert (0 <= IZR (Z.of_nat k)) by (apply IZR_le; lia).
  assert (IZR (Z.of_nat k) <= 299) by (apply IZR_le; lia).
  lra.
Qed.

Lemma tx_increasing (i j : nat) (Ti Tj : R) :
  tx !! i = Some Ti -> tx !! j = Some Tj -> (i < j)%nat -> Ti < Tj.
Proof.
  intros [_ ->]%tx_lookup [_ ->]%tx_lookup Hij.
  apply lt_INR in Hij. lra.
Qed.

Lemma px_lookup (vpop : Z) (pxs : list R) (k : nat) (x : R) :
  px vpop = Some pxs ->
  pxs !! k = Some x <->
  exists f T, sat_pressure vpop = Some f /\ tx !! k = Some T /\ x = f T.
Proof.
  unfold px. destruct (sat_pressure vpop) as [f|]; [|done].
  intros H. apply (inj Some) in H. subst pxs. rewrite list_lookup_fmap. split.
  - destruct (tx !! k) as [T|]; [|done]. intros [= <-]. by exists f, T.
  - intros (f' & T & Hf & HT & ->). injection Hf as <-. by rewrite HT.
Qed.

Lemma px_length (vpop : Z) (pxs : list R) :
  px vpop = Some pxs -> length pxs = 300%nat.
Proof.
  unfold px. destruct (sat_pressure vpop) as [f|]; [|done].
  intros H. apply (inj Some) in H. subst pxs. by rewrite length_fmap, tx_length.
Qed.

Lemma px_pos (vpop : Z) (pxs : list R) (k : nat) (x : R) :
  px vpop = Some pxs -> pxs !! k = Some x -> 0 < x.
Proof.
  intros Hpx (f & T & Hf & _ & ->)%(px_lookup _ _ _ _ Hpx).
  by eapply sat_pressure_pos.
Qed.

Lemma px_increasing (vpop : Z) (pxs : list R) (i j : nat) (x y : R) :
  px vpop = Some pxs ->
  pxs !! i = Some x -> pxs !! j = Some y -> (i < j)%nat -> x < y.
Proof.
  intros Hpx (f & Ti & Hf & Hi & ->)%(px_lookup _ _ _ _ Hpx)
             (f' & Tj & Hf' & Hj & ->)%(px_lookup _ _ _ _ Hpx) Hij.
  rewrite Hf in Hf'. injection Hf' as <-.
  pose proof (tx_range _ _ Hi). pose proof (tx_range _ _ Hj).
  pose proof (tx_increasing _ _ _ _ Hi Hj Hij).
  destruct (sat_pressure_cases vpop f Hf) as [[_ ->] | [[_ ->] | [_ ->]]].
  - apply murphy_koop_increasing; lra.
  - apply mauersberger_krankowsky_increasing; lra.
  - apply marti_mauersberger_increasing; lra.
Qed.

Lemma px_monotone (vpop : Z) (pxs : list R) (i j : nat) (x y : R) :
  px vpop = Some pxs ->
  pxs !! i = Some x -> pxs !! j = Some y -> (i <= j)%nat -> x <= y.
Proof.
  intros Hpx Hi Hj Hij. destruct (decide (i = j)) as [->|Hne].
  - rewrite Hi in Hj. injection Hj as <-. lra.
  - left. eapply px_increasing; [done.. | lia].
Qed.

(** ** Bracket search *)

Lemma index_Ok (a : list R) (i : nat) (x : R) : index a i = Ok x <-> a !! i = Some x.
Proof. unfold index. destruct (a !! i); split; congruence. Qed.

Lemma lt_mask_lookup (pxs : list R) (v : R) (n : nat) :
  ((fun x => Rltb x v) <$> pxs) !! n = Some true <->
  exists x, pxs !! n = Some x /\ x < v.
Proof.
  rewrite list_lookup_fmap. destruct (pxs !! n) as [x|]; simpl.
  - split.
    + intros [= H%Rltb_true]. eauto.
    + intros (x' & [= <-] & H%Rltb_true). congruence.
  - split; [done | by intros (? & ? & _)].
Qed.

Lemma ge_mask_lookup (pxs : list R) (v : R) (n : nat) :
  ((fun x => Rgeb x v) <$> pxs) !! n = Some true <->
  exists x, pxs !! n = Some x /\ v <= x.
Proof.
  rewrite list_lookup_fmap. destruct (pxs !! n) as [x|]; simpl.
  - split.
    + intros [= H%Rgeb_true]. eauto.
    + intros (x' & [= <-] & H%Rgeb_true). congruence.
  - split; [done | by intros (? & ? & _)].
Qed.

(** What the search below [p_h2o] returns: either the last entry smaller
    than [p_h2o], or the integer defaults when there is none. *)
Lemma bracket_below_cases (pxs txs : list R) (v : R) :
  length txs = length pxs ->
  (exists j p1 t1,
      bracket_below pxs txs v = Ok (VFloat p1, VFloat t1) /\
      pxs !! j = Some p1 /\ txs !! j = Some t1 /\ p1 < v /\
      forall m x, (j < m)%nat -> pxs !! m = Some x -> v <= x)
  \/ (bracket_below pxs txs v = Ok (VInt 0, VInt 0) /\
      forall m x, pxs !! m = Some x -> v <= x).
Proof.
  intros Hlen. unfold bracket_below, nonzero.
  destruct (last _) as [j|] eqn:E.
  - left. apply last_nonzero_from in E as (n & -> & Hn & Hgt). simpl.
    apply lt_mask_lookup in Hn as (p1 & Hp1 & Hlt).
    destruct (lookup_lt_is_Some_2 txs n) as [t1 Ht1].
    { rewrite Hlen. by eapply lookup_lt_Some. }
    exists n, p1, t1. unfold index. rewrite Hp1, Ht1. simpl.
    repeat split; try done.
    intros m x Hm Hx. destruct (Rle_dec v x) as [|Hnle]; [done|].
    exfalso. apply (Hgt m Hm). apply lt_mask_lookup. exists x. split; [done|lra].
  - right. split; [done|]. intros m x Hx.
    destruct (Rle_dec v x) as [|Hnle]; [done|]. exfalso.
    apply (last_nonzero_from_None _ _ E m). apply lt_mask_lookup.
    exists x. split; [done|lra].
Qed.

Lemma bracket_above_cases (pxs txs : list R) (v : R) :
  length txs = length pxs ->
  (exists j p2 t2,
      bracket_above pxs txs v = Ok (VFloat p2, VFloat t2) /\
      pxs !! j = Some p2 /\ txs !! j = Some t2 /\ v <= p2 /\
      forall m x, (m < j)%nat -> pxs !! m = Some x -> x < v)
  \/ (bracket_above pxs txs v = Ok (VInt 0, VInt 0) /\
      forall m x, pxs !! m = Some x -> x < v).
Proof.
  intros Hlen. unfold bracket_above, nonzero.
  destruct (head _) as [j|] eqn:E.
  - left. apply head_nonzero_from in E as (n & -> & Hn & Hlt). simpl.
    apply ge_mask_lookup in Hn as (p2 & Hp2 & Hge).
    destruct (lookup_lt_is_Some_2 txs n) as [t2 Ht2].
    { rewrite Hlen. by eapply lookup_lt_Some. }
    exists n, p2, t2. unfold index. rewrite Hp2, Ht2. simpl.
    repeat split; try done.
    intros m x Hm Hx. destruct (Rlt_dec x v) as [|Hnlt]; [done|].
    exfalso. specialize (Hlt m Hm). rewrite list_lookup_fmap, Hx in Hlt.
    simpl in Hlt. injection Hlt as Hlt.
    assert (Rgeb x v = true) by (apply Rgeb_true; lra). congruence.
  - right. split; [done|]. intros m x Hx.
    destruct (Rlt_dec x v) as [|Hnlt]; [done|]. exfalso.
    apply (head_nonzero_from_None _ _ E m). apply ge_mask_lookup.
    exists x. split; [done|lra].
Qed.

Lemma ln10_pos : 0 < ln 10.
Proof. rewrite <- ln_1. apply ln_increasing; lra. Qed.

Lemma log10_increasing (x y : R) : 0 < x -> x < y -> log10 x < log10 y.
Proof.
  intros Hx Hxy. unfold log10, Rdiv.
  apply Rmult_lt_compat_r; [apply Rinv_0_lt_compat, ln10_pos|].
  by apply ln_increasing.
Qed.

Lemma dsds_range (p1 p2 v : R) :
  0 < p1 -> p1 < v -> v <= p2 -> 0 <= dsds p1 p2 v < 1.
Proof.
  intros H1 H1v Hv2. unfold dsds.
  assert (Hlo : log10 p1 < log10 v) by (apply log10_increasing; lra).
  assert (Hhi : log10 v <= log10 p2).
  { destruct Hv2 as [Hlt | ->]; [left; apply log10_increasing; lra | lra]. }
  assert (Hd : 0 < log10 p2 - log10 p1) by lra.
  assert (Hi : 0 < / (log10 p2 - log10 p1)) by (by apply Rinv_0_lt_compat).
  assert (He : (log10 p2 - log10 p1) * / (log10 p2 - log10 p1) = 1)
    by (apply Rinv_r; lra).
  unfold Rdiv. split; nra.
Qed.

Lemma interp_between (p1 t1 p2 t2 v : R) :
  0 < p1 -> p1 < v -> v <= p2 -> 0 < t1 -> t1 < t2 ->
  0 < 1 / t2 - dsds p1 p2 v * (1 / t2 - 1 / t1) /\
  t1 < interp p1 t1 p2 t2 v <= t2.
Proof.
  intros H1 H1v Hv2 Ht1 Ht12.
  destruct (dsds_range p1 p2 v H1 H1v Hv2) as [Hf0 Hf1].
  unfold interp. set (fr := dsds p1 p2 v) in *.
  assert (Hb : 0 < / t2) by (apply Rinv_0_lt_compat; lra).
  assert (Hab : / t2 < / t1) by (apply Rinv_lt_contravar; nra).
  set (D := 1 / t2 - fr * (1 / t2 - 1 / t1)).
  assert (HD : / t2 <= D < / t1) by (unfold D, Rdiv; nra).
  assert (HDpos : 0 < D) by lra.
  split; [exact HDpos|].
  replace (1 / D) with (/ D) by (unfold Rdiv; lra). split.
  - rewrite <- (Rinv_inv t1). apply Rinv_lt_contravar; [|lra].
    apply Rmult_lt_0_compat; lra.
  - rewrite <- (Rinv_inv t2). apply Rinv_le_contravar; lra.
Qed.

(** C10: on the routine's table, whose pressures are strictly increasing,
    whenever the search finds both bounds, [p1 < p_h2o <= p2], so
    [p1 <> p2] and the interpolation denominator [log10(p2) - log10(p1)] is
    nonzero; the other divisors [t1], [t2] and
    [1/t2 - dsds * (1/t2 - 1/t1)] are nonzero as well, and the interpolated
    temperature lies between [t1] and [t2], inside the table range
    50..947 K. *)
Theorem bracket_interpolation_safe (vpop : Z) (pxs : list R) (v p1 t1 p2 t2 : R) :
  px vpop = Some pxs ->
  bracket_below pxs tx v = Ok (VFloat p1, VFloat t1) ->
  bracket_above pxs tx v = Ok (VFloat p2, VFloat t2) ->
  p1 < v <= p2 /\ p1 <> p2 /\ log10 p2 - log10 p1 <> 0 /\
  t1 <> 0 /\ t2 <> 0 /\ 1 / t2 - dsds p1 p2 v * (1 / t2 - 1 / t1) <> 0 /\
  t1 < interp p1 t1 p2 t2 v <= t2 /\
  50 <= interp p1 t1 p2 t2 v <= 947.
Proof.
  intros Hpx Hlo Hhi.
  assert (Hlen : length tx = length pxs) by (by rewrite tx_length, (px_length _ _ Hpx)).
  destruct (bracket_below_cases pxs tx v Hlen)
    as [(j1 & q1 & s1 & E1 & Hq1 & Hs1 & Hlt & _) | [E1 _]];
    rewrite E1 in Hlo; [|discriminate].
  destruct (bracket_above_cases pxs tx v Hlen)
    as [(j2 & q2 & s2 & E2 & Hq2 & Hs2 & Hge & _) | [E2 _]];
    rewrite E2 in Hhi; [|discriminate].
  assert (q1 = p1 /\ s1 = t1) as [-> ->] by (split; congruence).
  assert (q2 = p2 /\ s2 = t2) as [-> ->] by (split; congruence).
  clear Hlo Hhi E1 E2.
  assert (Hp1 : 0 < p1) by (by eapply px_pos).
  assert (Hj : (j1 < j2)%nat).
  { destruct (decide (j1 < j2)%nat) as [|Hn]; [done|]. exfalso.
    assert (p2 <= p1) by (eapply (px_monotone vpop pxs j2 j1); [done..|lia]). lra. }
  assert (Ht12 : t1 < t2) by (by eapply tx_increasing).
  pose proof (tx_range _ _ Hs1). pose proof (tx_range _ _ Hs2).
  assert (Hl : log10 p1 < log10 p2) by (apply log10_increasing; lra).
  destruct (interp_between p1 t1 p2 t2 v Hp1 Hlt Hge ltac:(lra) Ht12) as [HD Hi].
  repeat split; lra.
Qed.

(** The bracket found when [p_h2o] is exactly the table pressure of index
    [k >= 1]. *)
Lemma bracket_below_exact (vpop : Z) (pxs : list R) (k : nat) (Pj Pk : R) :
  px vpop = Some pxs ->
  pxs !! k = Some Pj -> pxs !! S k = Some Pk ->
  bracket_below pxs tx Pk = Ok (VFloat Pj, VFloat (INR k * 3 + 50)).
Proof.
  intros Hpx Hj Hk.
  assert (Hlen : length tx = length pxs) by (by rewrite tx_length, (px_length _ _ Hpx)).
  assert (HPjk : Pj < Pk) by (eapply (px_increasing vpop pxs k (S k)); [done..|lia]).
  destruct (bracket_below_cases pxs tx Pk Hlen)
    as [(j & q & s & -> & Hq & Hs & Hlt & Habove) | [_ Hall]].
  - assert (j = k) as ->.
    { destruct (lt_eq_lt_dec j k) as [[Hlt'|]|Hgt]; [|done|].
      - specialize (Habove k Pj Hlt' Hj). lra.
      - assert (Pk <= q) by (eapply (px_monotone vpop pxs (S k) j); [done..|lia]). lra. }
    rewrite Hj in Hq. apply (inj Some) in Hq. subst q.
    apply tx_lookup in Hs as [_ ->]. done.
  - specialize (Hall k Pj Hj). lra.
Qed.

Lemma bracket_above_exact (vpop : Z) (pxs : list R) (k : nat) (Pk : R) :
  px vpop = Some pxs ->
  pxs !! k = Some Pk ->
  bracket_above pxs tx Pk = Ok (VFloat Pk, VFloat (INR k * 3 + 50)).
Proof.
  intros Hpx Hk.
  assert (Hlen : length tx = length pxs) by (by rewrite tx_length, (px_length _ _ Hpx)).
  destruct (bracket_above_cases pxs tx Pk Hlen)
    as [(j & q & s & -> & Hq & Hs & Hge & Hbelow) | [_ Hall]].
  - assert (j = k) as ->.
    { destruct (lt_eq_lt_dec j k) as [[Hlt'|]|Hgt]; [|done|].
      - assert (q < Pk) by (by eapply (px_increasing vpop pxs j k)). lra.
      - specialize (Hbelow k Pk Hgt Hk). lra. }
    rewrite Hk in Hq. apply (inj Some) in Hq. subst q.
    apply tx_lookup in Hs as [_ ->]. done.
  - specialize (Hall k Pk Hk). lra.
Qed.

Lemma bracket_below_first (vpop : Z) (pxs : list R) (P0 : R) :
  px vpop = Some pxs -> pxs !! 0%nat = Some P0 ->
  bracket_below pxs tx P0 = Ok (VInt 0, VInt 0).
Proof.
  intros Hpx H0.
  assert (Hlen : length tx = length pxs) by (by rewrite tx_length, (px_length _ _ Hpx)).
  destruct (bracket_below_cases pxs tx P0 Hlen)
    as [(j & q & s & _ & Hq & _ & Hlt & _) | [-> _]]; [|done].
  assert (P0 <= q) by (eapply (px_monotone vpop pxs 0 j); [done..|lia]). lra.
Qed.

Lemma interp_exact (p1 t1 p2 t2 : R) : t2 <> 0 -> interp p1 t1 p2 t2 p2 = t2.
Proof.
  intros Ht2. unfold interp, dsds.
  replace (log10 p2 - log10 p2) with 0 by lra.
  replace (0 / (log10 p2 - log10 p1)) with 0 by (unfold Rdiv; lra).
  replace (1 / t2 - 0 * (1 / t2 - 1 / t1)) with (/ t2) by (unfold Rdiv; lra).
  unfold Rdiv. rewrite Rmult_1_l. by apply Rinv_inv.
Qed.

(** For a table index [k = 1..299] and [p_h2o] equal to the table pressure
    [P_k], the search returns the bracket [(P_(k-1), T_(k-1))],
    [(P_k, T_k)], the interpolation fraction is zero and the interpolation
    expression evaluates, over the reals, to [T_k = 50 + 3k]. *)
Lemma exact_hit_roundtrip (vpop : Z) (pxs : list R) (k : nat) (Pk : R) :
  px vpop = Some pxs ->
  (1 <= k)%nat ->
  pxs !! k = Some Pk ->
  exists Pj,
    pxs !! (k - 1)%nat = Some Pj /\
    bracket_below pxs tx Pk = Ok (VFloat Pj, VFloat (INR (k - 1) * 3 + 50)) /\
    bracket_above pxs tx Pk = Ok (VFloat Pk, VFloat (INR k * 3 + 50)) /\
    dsds Pj Pk Pk = 0 /\
    interp Pj (INR (k - 1) * 3 + 50) Pk (INR k * 3 + 50) Pk = INR k * 3 + 50.
Proof.
  intros Hpx Hk HPk.
  destruct k as [|k]; [lia|]. replace (S k - 1)%nat with k by lia.
  destruct (lookup_lt_is_Some_2 pxs k) as [Pj HPj].
  { apply lookup_lt_Some in HPk. lia. }
  exists Pj. split; [done|].
  split; [by eapply bracket_below_exact|].
  split; [by eapply bracket_above_exact|].
  split.
  - unfold dsds. replace (log10 Pk - log10 Pk) with 0 by lra.
    unfold Rdiv. apply Rmult_0_l.
  - apply interp_exact. pose proof (pos_INR (S k)). lra.
Qed.

(** ** The guard of the interpolation *)

Lemma fold_left_Rmin_init (r : list R) (x : R) : fold_left Rmin r x <= x.
Proof.
  revert x. induction r as [|a r IH]; intros x; simpl; [lra|].
  transitivity (Rmin x a); [apply IH | apply Rmin_l].
Qed.

Lemma fold_left_Rmin_le (r : list R) (x y : R) :
  y ∈ x :: r -> fold_left Rmin r x <= y.
Proof.
  revert x. induction r as [|a r IH]; intros x Hy.
  - apply list_elem_of_singleton in Hy as ->. simpl. lra.
  - simpl. apply elem_of_cons in Hy as [-> | Hy].
    + transitivity (Rmin x a); [apply fold_left_Rmin_init | apply Rmin_l].
    + apply elem_of_cons in Hy as [-> | Hy].
      * transitivity (Rmin x a); [apply fold_left_Rmin_init | apply Rmin_r].
      * apply IH. by right.
Qed.

Lemma fold_left_Rmax_init (r : list R) (x : R) : x <= fold_left Rmax r x.
Proof.
  revert x. induction r as [|a r IH]; intros x; simpl; [lra|].
  transitivity (Rmax x a); [apply Rmax_l | apply IH].
Qed.

Lemma fold_left_Rmax_ge (r : list R) (x y : R) :
  y ∈ x :: r -> y <= fold_left Rmax r x.
Proof.
  revert x. induction r as [|a r IH]; intros x Hy.
  - apply list_elem_of_singleton in Hy as ->. simpl. lra.
  - simpl. apply elem_of_cons in Hy as [-> | Hy].
    + transitivity (Rmax x a); [apply Rmax_l | apply fold_left_Rmax_init].
    + apply elem_of_cons in Hy as [-> | Hy].
      * transitivity (Rmax x a); [apply Rmax_r | apply fold_left_Rmax_init].
      * apply IH. by right.
Qed.

(** The guard as specified holds for every table pressure that has a
    predecessor in the table. *)
Lemma spec_frost_guard_exact (vpop : Z) (pxs : list R) (k : nat) (Pj Pk : R) :
  px vpop = Some pxs ->
  pxs !! k = Some Pj -> pxs !! S k = Some Pk ->
  spec_frost_guard pxs Pk Pj Pk = true.
Proof.
  intros Hpx Hj Hk. unfold spec_frost_guard.
  assert (HPk : Pk ∈ pxs) by (by eapply list_elem_of_lookup_2).
  pose proof (px_pos _ _ _ _ Hpx Hj). pose proof (px_pos _ _ _ _ Hpx Hk).
  destruct pxs as [|x r]; [by apply elem_of_nil in HPk|]. simpl.
  rewrite (proj2 (Rgeb_true _ _) (fold_left_Rmin_le r x Pk HPk)).
  rewrite (proj2 (Rleb_true _ _) (fold_left_Rmax_ge r x Pk HPk)).
  by rewrite !(proj2 (Rgtb_true _ _)) by done.
Qed.

(** The bounds found are the tightest ones: no table pressure lies strictly
    between [p1] and [p_h2o], nor between [p_h2o] and [p2]. *)
Lemma bracket_tightest (vpop : Z) (pxs : list R) (v p1 t1 p2 t2 : R) :
  px vpop = Some pxs ->
  bracket_below pxs tx v = Ok (VFloat p1, VFloat t1) ->
  bracket_above pxs tx v = Ok (VFloat p2, VFloat t2) ->
  forall x, x ∈ pxs -> (x < v -> x <= p1) /\ (v <= x -> p2 <= x).
Proof.
  intros Hpx Hlo Hhi x [m Hm]%list_elem_of_lookup_1.
  assert (Hlen : length tx = length pxs) by (by rewrite tx_length, (px_length _ _ Hpx)).
  destruct (bracket_below_cases pxs tx v Hlen)
    as [(j1 & q1 & s1 & E1 & Hq1 & _ & _ & Habove) | [E1 _]];
    rewrite E1 in Hlo; [|discriminate].
  destruct (bracket_above_cases pxs tx v Hlen)
    as [(j2 & q2 & s2 & E2 & Hq2 & _ & _ & Hbelow) | [E2 _]];
    rewrite E2 in Hhi; [|discriminate].
  assert (q1 = p1) as -> by congruence. assert (q2 = p2) as -> by congruence.
  split; intros Hx.
  - destruct (decide (m <= j1)%nat) as [Hle|Hgt].
    + by eapply (px_monotone vpop pxs m j1).
    + specialize (Habove m x ltac:(lia) Hm). lra.
  - destruct (decide (j2 <= m)%nat) as [Hle|Hgt].
    + by eapply (px_monotone vpop pxs j2 m).
    + specialize (Hbelow m x ltac:(lia) Hm). lra.
Qed.

Lemma frost_guard_raises (pxs : list R) (v : R) (p1 p2 : pyval) :
  exists e, frost_guard pxs v p1 p2 = Raise e.
Proof. unfold frost_guard. destruct pxs; simpl; eauto. Qed.

Lemma frost_guard_type_error (pxs : list R) (v : R) (p1 p2 : pyval) :
  pxs <> [] -> frost_guard pxs v p1 p2 = Raise TypeError.
Proof. unfold frost_guard. destruct pxs; simpl; [done|eauto]. Qed.

(** ** Store invariants of monadic computations *)

Section Preserves.
Context (P : store -> Prop).

Lemma preserves_ret {A} (a : A) : preserves P (mret a).
Proof. by intros s Hs. Qed.

Lemma preserves_lift {A} (r : result A) : preserves P (lift r).
Proof. by intros s Hs. Qed.

Lemma preserves_read (a : store -> list R) (i : nat) : preserves P (read a i).
Proof. by intros s Hs. Qed.

Lemma preserves_write (f : store -> store) :
  (forall s, P s -> P (f s)) -> preserves P (write f).
Proof. intros Hf s Hs. by apply Hf. Qed.

Lemma preserves_bind {A B} (m : M A) (f : A -> M B) :
  preserves P m -> (forall a, preserves P (f a)) -> preserves P (m ≫= f).
Proof.
  intros Hm Hf s Hs. specialize (Hm s Hs).
  unfold mbind, M_bind, m_bind. destruct (m s) as [s' [a|e]]; simpl in *.
  - by apply Hf.
  - done.
Qed.

Lemma preserves_bind_lift {A B} (r : result A) (f : A -> M B) :
  (forall a, r = Ok a -> preserves P (f a)) -> preserves P (lift r ≫= f).
Proof.
  intros Hf s Hs. unfold mbind, M_bind, m_bind, lift.
  destruct r as [a|e]; simpl; [by apply Hf | done].
Qed.
End Preserves.

Ltac preserves_step :=
  first
    [ apply preserves_ret
    | apply preserves_lift
    | apply preserves_read
    | apply preserves_bind_lift; intros ? ?
    | apply preserves_bind; [|intros ?]
    | match goal with
      | |- preserves _ (if ?b then _ else _) => destruct b
      | |- preserves _ (match ?x with Some _ => _ | None => _ end) => destruct x
      end ].

Lemma level_preserves (P : store -> Prop) (pr : profile) (vpop : Z) (i : nat) :
  stable_under_solver P i ->
  (forall x s, P s -> P (set_t_ice i x s)) ->
  preserves P (level pr vpop i).
Proof.
  intros HP Ht. unfold level. cbv zeta.
  repeat preserves_step;
    apply preserves_write; intros s Hs; first [by apply Ht | by apply HP].
Qed.

(** The guard never yields [True], so the write into [t_ice] is never
    reached. *)
Lemma level_preserves_t_ice (P : store -> Prop) (pr : profile) (vpop : Z) (i : nat) :
  stable_under_solver P i ->
  preserves P (level pr vpop i).
Proof.
  intros HP. unfold level. cbv zeta.
  apply preserves_bind_lift; intros ti _.
  destruct (Rgtb ti 0); [|apply preserves_ret].
  do 8 (apply preserves_bind;
        [ repeat preserves_step; apply preserves_write; intros s Hs; by apply HP
        | intros ? ]).
  apply preserves_bind_lift; intros pxs _.
  apply preserves_bind_lift; intros lower _.
  apply preserves_bind_lift; intros upper _.
  apply preserves_bind_lift; intros g Hg.
  match type of Hg with
  | frost_guard ?a ?b ?c ?d = _ => destruct (frost_guard_raises a b c d) as [e He]
  end.
  congruence.
Qed.

Lemma level_loop_preserves (P : store -> Prop) (pr : profile) (vpop : Z)
    (levels : list nat) :
  (forall i, i ∈ levels -> preserves P (level pr vpop i)) ->
  preserves P (level_loop pr vpop levels).
Proof.
  induction levels as [|i r IH]; intros H; simpl.
  - apply preserves_ret.
  - apply preserves_bind; [apply H; left|].
    intros _. apply IH. intros j Hj. apply H. by right.
Qed.

(** ** Running [level] step by step *)

Lemma run_lift_Ok {A B} (r : result A) (a : A) (f : A -> M B) (s : store) :
  r = Ok a -> (lift r ≫= f) s = f a s.
Proof. by intros ->. Qed.

Lemma run_lift_Raise {A B} (r : result A) (e : pyerr) (f : A -> M B) (s : store) :
  r = Raise e -> (lift r ≫= f) s = (s, Raise e).
Proof. by intros ->. Qed.

Lemma run_write {B} (g : store -> store) (f : unit -> M B) (s : store) :
  (write g ≫= f) s = f tt (g s).
Proof. done. Qed.

Lemma run_read_Ok {B} (a : store -> list R) (i : nat) (x : R) (f : R -> M B) (s : store) :
  a s !! i = Some x -> (read a i ≫= f) s = f x s.
Proof.
  intros H. unfold mbind, M_bind, m_bind, read, index. by rewrite H.
Qed.

Lemma run_ret {A B} (a : A) (f : A -> M B) (s : store) : (mret a ≫= f) s = f a s.
Proof. done. Qed.

Lemma run_bind_assoc {A B C} (m : M A) (f : A -> M B) (g : B -> M C) (s : store) :
  ((m ≫= f) ≫= g) s = (m ≫= (fun a => f a ≫= g)) s.
Proof.
  unfold mbind, M_bind, m_bind. by destruct (m s) as [s' [a|e]].
Qed.

(** A level whose temperature is not positive is skipped: nothing is
    written and nothing is raised. *)
Lemma level_skipped (pr : profile) (vpop : Z) (i : nat) (ti : R) (s : store) :
  t pr !! i = Some ti -> ti <= 0 -> level pr vpop i s = (s, Ok tt).
Proof.
  intros Ht Hle. unfold level.
  rewrite (run_lift_Ok _ ti) by (by apply index_Ok).
  by rewrite (proj2 (Rgtb_false ti 0) Hle).
Qed.

Lemma init_store_default (nz i : nat) : (i < nz)%nat -> default_at i (init_store nz).
Proof.
  intros Hi. unfold default_at, init_store; simpl.
  repeat split; by apply lookup_replicate_2.
Qed.

Lemma default_at_frame (i j : nat) : i <> j ->
  forall x s, default_at i s ->
    default_at i (set_t_ice j x s) /\
    default_at i (set_p_ice j x s) /\ default_at i (set_h2o_sat j x s) /\
    default_at i (set_s_ice j x s) /\ default_at i (set_v_ice j x s) /\
    default_at i (set_m_ice j x s) /\ default_at i (set_h2o_ice j x s).
Proof.
  intros Hij x s (H1 & H2 & H3 & H4 & H5 & H6 & H7).
  unfold default_at; simpl.
  repeat split; try done; by rewrite list_lookup_insert_ne.
Qed.

Lemma level_frame (pr : profile) (vpop : Z) (i j : nat) :
  i <> j -> preserves (default_at i) (level pr vpop j).
Proof.
  intros Hij. apply level_preserves.
  - intros x s Hs. destruct (default_at_frame i j Hij x s Hs) as (_ & H). exact H.
  - intros x s Hs. by destruct (default_at_frame i j Hij x s Hs) as (H & _).
Qed.

(** A level with [T[i] <= 0] is skipped by the loop body, and the loop,
    whether it runs to its end or stops at an exception, leaves the defaults
    of that level in place. *)
Lemma level_loop_keeps_defaults (pr : profile) (vpop : Z) (i : nat) (ti : R)
    (levels : list nat) (s : store) :
  t pr !! i = Some ti -> ti <= 0 -> default_at i s ->
  default_at i (level_loop pr vpop levels s).1.
Proof.
  intros Ht Hle. apply level_loop_preserves.
  intros j _. destruct (decide (i = j)) as [<-|Hne].
  - intros s' Hs. by rewrite (level_skipped pr vpop i ti s').
  - by apply level_frame.
Qed.

(** ** The frost point is never written *)

Lemma t_ice_stable (l : list R) (i : nat) :
  stable_under_solver (fun s => t_ice s = l) i.
Proof. intros x s Hs. by repeat split. Qed.

Lemma level_loop_keeps_t_ice (pr : profile) (vpop : Z) (levels : list nat)
    (s : store) :
  t_ice (level_loop pr vpop levels s).1 = t_ice s.
Proof.
  apply (level_loop_preserves (fun s' => t_ice s' = t_ice s)); [|done].
  intros i _. apply level_preserves_t_ice, t_ice_stable.
Qed.

Lemma bracket_below_Ok (pxs txs : list R) (v : R) :
  length txs = length pxs -> exists r, bracket_below pxs txs v = Ok r.
Proof.
  intros Hlen.
  destruct (bracket_below_cases pxs txs v Hlen) as [(j & q & s & -> & _) | [-> _]]; eauto.
Qed.

Lemma bracket_above_Ok (pxs txs : list R) (v : R) :
  length txs = length pxs -> exists r, bracket_above pxs txs v = Ok r.
Proof.
  intros Hlen.
  destruct (bracket_above_cases pxs txs v Hlen) as [(j & q & s & -> & _) | [-> _]]; eauto.
Qed.

Lemma px_valid (vpop : Z) :
  (1 <= vpop <= 3)%Z -> exists f, sat_pressure vpop = Some f /\ px vpop = Some (f <$> tx).
Proof.
  intros H. destruct (sat_pressure_valid vpop H) as [f Hf].
  exists f. split; [done|]. unfold px. by rewrite Hf.
Qed.

Lemma px_nonempty (vpop : Z) (pxs : list R) : px vpop = Some pxs -> pxs <> [].
Proof. intros H%px_length ->. done. Qed.

Lemma preserves_run {A} (P : store -> Prop) (m : M A) (s : store) :
  preserves P m -> P s -> P (m s).1.
Proof. intros H. apply H. Qed.

(** The remainder of the loop body, from the saturation mixing ratio on,
    never writes [p_ice]. *)
Lemma p_ice_stable_rest (l : list R) (i : nat) :
  forall x s, p_ice s = l ->
    p_ice (set_h2o_sat i x s) = l /\ p_ice (set_s_ice i x s) = l /\
    p_ice (set_v_ice i x s) = l /\ p_ice (set_m_ice i x s) = l /\
    p_ice (set_h2o_ice i x s) = l /\ p_ice (set_t_ice i x s) = l.
Proof. intros x s Hs. by repeat split. Qed.

(** What [level] writes into [p_ice[i]] for a positive temperature. *)
Lemma level_p_ice (pr : profile) (vpop : Z) (f : R -> R) (i : nat) (ti : R) (s : store) :
  sat_pressure vpop = Some f ->
  t pr !! i = Some ti -> 0 < ti ->
  p_ice (level pr vpop i s).1 = <[i := f ti]> (p_ice s).
Proof.
  intros Hf Ht Hpos. unfold level.
  rewrite (run_lift_Ok _ ti) by (by apply index_Ok).
  rewrite (proj2 (Rgtb_true ti 0) Hpos), Hf, run_write. cbv zeta.
  match goal with
  | |- p_ice (?m ?s1).1 = ?l =>
      apply (preserves_run (fun s' => p_ice s' = l) m s1); [|done]
  end.
  repeat preserves_step; apply preserves_write; intros s' Hs';
    by apply (p_ice_stable_rest _ i).
Qed.

(** A processed level always ends in the [TypeError] of the guard. *)
Lemma level_raises_type_error (pr : profile) (vpop : Z) (i : nat) (ti pi hi : R)
    (s : store) :
  (1 <= vpop <= 3)%Z ->
  t pr !! i = Some ti -> 0 < ti ->
  p pr !! i = Some pi -> h2o pr !! i = Some hi ->
  (i < length (p_ice s))%nat -> (i < length (h2o_sat s))%nat ->
  (level pr vpop i s).2 = Raise TypeError.
Proof.
  intros Hv Ht Hpos Hp Hh Hl1 Hl2.
  destruct (px_valid vpop Hv) as (f & Hf & Hpx).
  unfold level.
  rewrite (run_lift_Ok _ ti) by (by apply index_Ok).
  rewrite (proj2 (Rgtb_true ti 0) Hpos), Hf, run_write.
  rewrite (run_read_Ok _ _ (f ti)) by (by apply list_lookup_insert_eq).
  rewrite (run_lift_Ok _ pi) by (by apply index_Ok).
  rewrite run_write.
  rewrite (run_lift_Ok _ hi) by (by apply index_Ok).
  rewrite (run_read_Ok _ _ (1.0e6 * f ti / pi)) by (by apply list_lookup_insert_eq).
  rewrite run_write. cbv zeta.
  rewrite Hpx.
  assert (Hlen : length tx = length (f <$> tx)) by (by rewrite length_fmap).
  destruct (bracket_below_Ok (f <$> tx) tx (pi * hi * 1.0e-6) Hlen) as [lo Hlo].
  destruct (bracket_above_Ok (f <$> tx) tx (pi * hi * 1.0e-6) Hlen) as [up Hup].
  assert (Hg := frost_guard_type_error (f <$> tx) (pi * hi * 1.0e-6) lo.1 up.1
                  (px_nonempty _ _ Hpx)).
  destruct (Rgtb (hi - 1.0e6 * f ti / pi) 0.0).
  - repeat (rewrite ?run_bind_assoc, ?run_write; cbv beta).
    rewrite (run_lift_Ok _ (f <$> tx)) by done.
    rewrite (run_lift_Ok _ lo) by done.
    rewrite (run_lift_Ok _ up) by done.
    by rewrite (run_lift_Raise _ TypeError).
  - rewrite run_ret.
    rewrite (run_lift_Ok _ (f <$> tx)) by done.
    rewrite (run_lift_Ok _ lo) by done.
    rewrite (run_lift_Ok _ up) by done.
    by rewrite (run_lift_Raise _ TypeError).
Qed.

(** ** Column integration *)

Lemma py_index_nonneg (zs : list R) (i : Z) :
  (0 <= i)%Z -> py_index zs i = index zs (Z.to_nat i).
Proof. intros H. unfold py_index. by rewrite (proj2 (Z.leb_le 0 i) H). Qed.

Lemma centered_dz_interior (zs : list R) (ki : nat) (a b : R) :
  zs !! S ki = Some a -> zs !! pred ki = Some b -> (0 < ki)%nat ->
  centered_dz zs ki = Ok (Rabs (a - b) * 0.5).
Proof.
  intros Ha Hb Hk. unfold centered_dz.
  rewrite !py_index_nonneg by lia.
  replace (Z.to_nat (Z.of_nat ki + 1)) with (S ki) by lia.
  replace (Z.to_nat (Z.of_nat ki - 1)) with (pred ki) by lia.
  by rewrite (proj2 (index_Ok _ _ _) Ha), (proj2 (index_Ok _ _ _) Hb).
Qed.

Lemma centered_dz_last (zs : list R) (ki : nat) :
  S ki = length zs -> centered_dz zs ki = Raise IndexError.
Proof.
  intros Hk. unfold centered_dz.
  rewrite (py_index_nonneg zs (Z.of_nat ki + 1)) by lia.
  replace (Z.to_nat (Z.of_nat ki + 1)) with (S ki) by lia.
  unfold index. rewrite lookup_ge_None_2 by lia. done.
Qed.

Lemma centered_dz_first (zs : list R) (a b : R) :
  zs !! 1%nat = Some a -> last zs = Some b ->
  centered_dz zs 0 = Ok (Rabs (a - b) * 0.5).
Proof.
  intros Ha Hb. unfold centered_dz.
  rewrite (py_index_nonneg zs (Z.of_nat 0 + 1)) by lia.
  change (Z.to_nat (Z.of_nat 0 + 1)) with 1%nat.
  rewrite (proj2 (index_Ok _ _ _) Ha).
  unfold py_index. change (0 <=? Z.of_nat 0 - 1)%Z with false. cbv iota.
  assert (Hlen : (2 <= length zs)%nat) by (apply lookup_lt_Some in Ha; lia).
  rewrite (proj2 (Z.leb_le _ _)) by lia.
  replace (Z.to_nat (Z.of_nat (length zs) + (Z.of_nat 0 - 1))) with (pred (length zs)) by lia.
  rewrite last_lookup in Hb.
  by rewrite (proj2 (index_Ok _ _ _) Hb).
Qed.

(** C9 (amended): the accesses [z[k[i]+1]] and [z[k[i]-1]] are not
    bounds-checked.  For a selected index strictly inside the profile both
    stay inside the array and [dz = |z[i+1] - z[i-1]| / 2]; at the last
    level [z[i+1]] raises [IndexError]; at the first level [z[i-1]] is
    [z[-1]], the last sample of the profile. *)
Theorem centered_dz_bounds (zs : list R) (ki : nat) :
  (ki < length zs)%nat ->
  ((0 < ki)%nat -> (S ki < length zs)%nat ->
     exists a b, zs !! S ki = Some a /\ zs !! pred ki = Some b /\
                 centered_dz zs ki = Ok (Rabs (a - b) * 0.5)) /\
  (S ki = length zs -> centered_dz zs ki = Raise IndexError) /\
  (ki = 0%nat -> (1 < length zs)%nat ->
     exists a b, zs !! 1%nat = Some a /\ last zs = Some b /\
                 centered_dz zs ki = Ok (Rabs (a - b) * 0.5)).
Proof.
  intros Hk. split; [|split].
  - intros H0 H1.
    destruct (lookup_lt_is_Some_2 zs (S ki) H1) as [a Ha].
    destruct (lookup_lt_is_Some_2 zs (pred ki)) as [b Hb]; [lia|].
    exists a, b. split; [done|]. split; [done|]. by apply centered_dz_interior.
  - apply centered_dz_last.
  - intros -> H1.
    destruct (lookup_lt_is_Some_2 zs 1 H1) as [a Ha].
    destruct (lookup_lt_is_Some_2 zs (pred (length zs))) as [b Hb]; [lia|].
    rewrite <- last_lookup in Hb.
    exists a, b. split; [done|]. split; [done|]. by apply centered_dz_first.
Qed.

Lemma centered_dz_bounds_witness :
  centered_dz [81; 82; 84] 1 = Ok (Rabs (84 - 81) * 0.5).
Proof.
  destruct (centered_dz_bounds [81; 82; 84] 1 ltac:(simpl; lia)) as (H & _ & _).
  destruct (H ltac:(lia) ltac:(simpl; lia)) as (a & b & Ha & Hb & ->).
  simpl in Ha, Hb. by simplify_eq.
Defined.

(** One turn of the loop on a level inside the 2 km window. *)
Lemma integrate_step_unset (zs mice : list R) (zmx : R) (ki : nat) (zk mk d w : R) :
  zs !! ki = Some zk -> zmx - 2 < zk -> mice !! ki = Some mk ->
  integrate_step zs mice None zmx ki (Some d, w) = Ok (Some d, w + mk * d).
Proof.
  intros Hz Hw Hm. unfold integrate_step.
  rewrite (proj2 (index_Ok _ _ _) Hz). simpl.
  rewrite (proj2 (Rgtb_true _ _) Hw).
  by rewrite (proj2 (index_Ok _ _ _) Hm).
Qed.

Lemma integrate_step_set (zs mice : list R) (c zmx : R) (ki : nat) (zk mk d : R)
    (st : option R * R) :
  zs !! ki = Some zk -> zmx - 2 < zk -> mice !! ki = Some mk ->
  centered_dz zs ki = Ok d ->
  integrate_step zs mice (Some c) zmx ki st = Ok (Some d, st.2 + mk * d).
Proof.
  intros Hz Hw Hm Hd. unfold integrate_step.
  rewrite (proj2 (index_Ok _ _ _) Hz). simpl.
  rewrite (proj2 (Rgtb_true _ _) Hw), Hd. simpl.
  by rewrite (proj2 (index_Ok _ _ _) Hm).
Qed.

Lemma integrate_step_outside (zs mice : list R) (c : option R) (zmx : R) (ki : nat)
    (zk : R) (st : option R * R) :
  zs !! ki = Some zk -> zk <= zmx - 2 ->
  integrate_step zs mice c zmx ki st = Ok st.
Proof.
  intros Hz Hw. unfold integrate_step.
  rewrite (proj2 (index_Ok _ _ _) Hz). simpl.
  by rewrite (proj2 (Rgtb_false _ _) Hw).
Qed.

Lemma integrate_step_set_raises (zs mice : list R) (c zmx : R) (ki : nat) (zk : R)
    (e : pyerr) (st : option R * R) :
  zs !! ki = Some zk -> zmx - 2 < zk -> centered_dz zs ki = Raise e ->
  integrate_step zs mice (Some c) zmx ki st = Raise e.
Proof.
  intros Hz Hw Hd. unfold integrate_step.
  rewrite (proj2 (index_Ok _ _ _) Hz). simpl.
  by rewrite (proj2 (Rgtb_true _ _) Hw), Hd.
Qed.

(** C9, at the two ends of a profile of three levels: at the last level
    [z[3]] is out of range and the access raises [IndexError], which aborts
    the whole integration; at the first level [z[-1]] is the last sample,
    so the spacing is taken between [z[1]] and [z[2]].  No one-sided
    difference is substituted. *)
Lemma centered_dz_unchecked :
  centered_dz [81; 82; 83] 2 = Raise IndexError /\
  centered_dz [81; 82; 83] 0 = Ok (Rabs (82 - 83) * 0.5) /\
  integrate [81; 82; 83] [1; 1; 1] (Some 1) 82 [0; 1; 2]%nat 0 = Raise IndexError.
Proof.
  split; [by apply centered_dz_last|].
  split; [by apply centered_dz_first|].
  unfold integrate. cbn [mbind result_bind rbind]. unfold integrate_loop.
  rewrite (integrate_step_set _ _ _ _ 0 81 1 (Rabs (82 - 83) * 0.5))
    by (done || lra || by apply centered_dz_first).
  cbn [mbind result_bind rbind].
  rewrite (integrate_step_set _ _ _ _ 1 82 1 (Rabs (83 - 81) * 0.5))
    by (done || lra || by apply centered_dz_interior).
  cbn [mbind result_bind rbind].
  rewrite (integrate_step_set_raises _ _ _ _ 2 83 IndexError)
    by (done || lra || by apply centered_dz_last).
  reflexivity.
Qed.

(** C2: on a profile with uneven spacing and [constdz] unset, every
    selected level is weighted by the single spacing [|z[1] - z[0]| = 11],
    giving [iwc = 44]; the centered differences [6], [1.5] and [9], which
    give [18], are used when [constdz] is set. *)
Theorem integrate_spacing_inverted :
  integrate [70; 81; 82; 84; 100] [0; 1; 2; 1; 0] None 82 [1; 2; 3]%nat 0 = Ok 44 /\
  integrate [70; 81; 82; 84; 100] [0; 1; 2; 1; 0] (Some 1) 82 [1; 2; 3]%nat 0 = Ok 18.
Proof.
  assert (A11 : Rabs (81 - 70) = 11) by (rewrite Rabs_pos_eq; lra).
  assert (A12 : Rabs (82 - 70) = 12) by (rewrite Rabs_pos_eq; lra).
  assert (A3 : Rabs (84 - 81) = 3) by (rewrite Rabs_pos_eq; lra).
  assert (A18 : Rabs (100 - 82) = 18) by (rewrite Rabs_pos_eq; lra).
  split.
  - unfold integrate.
    rewrite (proj2 (index_Ok _ 1 81)), (proj2 (index_Ok _ 0 70)) by done.
    cbn [mbind result_bind rbind]. rewrite A11.
    unfold integrate_loop.
    rewrite (integrate_step_unset _ _ _ 1 81 1) by (done || lra).
    cbn [mbind result_bind rbind].
    rewrite (integrate_step_unset _ _ _ 2 82 2) by (done || lra).
    cbn [mbind result_bind rbind].
    rewrite (integrate_step_unset _ _ _ 3 84 1) by (done || lra).
    cbn [mbind result_bind rbind snd]. f_equal. lra.
  - unfold integrate. cbn [mbind result_bind rbind].
    unfold integrate_loop.
    rewrite (integrate_step_set _ _ _ _ 1 81 1 (Rabs (82 - 70) * 0.5))
      by (done || lra || by apply centered_dz_interior).
    cbn [mbind result_bind rbind].
    rewrite (integrate_step_set _ _ _ _ 2 82 2 (Rabs (84 - 81) * 0.5))
      by (done || lra || by apply centered_dz_interior).
    cbn [mbind result_bind rbind].
    rewrite (integrate_step_set _ _ _ _ 3 84 1 (Rabs (100 - 82) * 0.5))
      by (done || lra || by apply centered_dz_interior).
    cbn [mbind result_bind rbind snd]. rewrite A12, A3, A18. f_equal. lra.
Qed.

(** ** Layer selection and the routine as a whole *)

Lemma layer_select_raises (zs mice : list R) :
  layer_select zs mice = Raise TypeError.
Proof. reflexivity. Qed.

(** C4: the selection of the layer indices raises [TypeError] on every
    profile, with or without ice between 80 and 95 km, so the layer summary
    returns no scalar at all. *)
Theorem layer_select_type_error (zs mice : list R) (constdz : option R) :
  layer_select zs mice = Raise TypeError /\
  layer_summary zs mice constdz = Raise TypeError.
Proof. split; reflexivity. Qed.

Lemma rbind_Ok_inv {A B} (r : result A) (f : A -> result B) (b : B) :
  r ≫= f = Ok b -> exists a, r = Ok a /\ f a = Ok b.
Proof. destruct r as [a|e]; [by exists a | done]. Qed.

(** The block under [if (nk > 0)] binds the lower-case names only: the
    capitalised scalars keep the value they had. *)
Lemma layer_summary_from_capitals (zs mice : list R) (c : option R) (k : list nat)
    (sc sc' : scalars) :
  layer_summary_from zs mice c k sc = Ok sc' ->
  Zmax sc' = Zmax sc /\ Ztop sc' = Ztop sc /\ Zbot sc' = Zbot sc.
Proof.
  unfold layer_summary_from. destruct k as [|k0 k]; [intros [= ->]; auto|].
  intros H.
  repeat (apply rbind_Ok_inv in H as (? & _ & H)).
  injection H as <-. auto.
Qed.

Lemma Reqb_refl (x : R) : Reqb x x = true.
Proof. unfold Reqb. by destruct (Req_dec_T x x). Qed.

(** A layer of one level at 85 km: the block under [if (nk > 0)] binds
    [zmax], [ztop] and [zbot] to 85 and sets [iwc], while [Zmax], [Ztop] and
    [Zbot] keep their initial zero. *)
Lemma layer_summary_from_example :
  layer_summary_from [84; 85; 86] [0; 5; 0] None [1%nat] init_scalars
  = Ok (Scalars 0 0 0 5 (Some 85) (Some 85) (Some 85)).
Proof.
  unfold layer_summary_from, peak_altitude.
  change (take_idx [0; 5; 0] [1%nat]) with (Ok [5] : result (list R)).
  change (take_idx [84; 85; 86] [1%nat]) with (Ok [85] : result (list R)).
  cbn [mbind result_bind rbind py_max py_min fold_left fmap list_fmap].
  rewrite Reqb_refl.
  cbn [nonzero nonzero_from head mbind result_bind rbind].
  change ([1%nat] !! 0%nat) with (Some 1%nat).
  cbn [mbind result_bind rbind].
  rewrite (proj2 (index_Ok [84; 85; 86] 1 85)) by done.
  cbn [mbind result_bind rbind].
  unfold integrate.
  rewrite (proj2 (index_Ok _ 1 85)), (proj2 (index_Ok _ 0 84)) by done.
  cbn [mbind result_bind rbind]. unfold integrate_loop.
  rewrite (integrate_step_unset _ _ _ 1 85 5) by (done || lra).
  cbn [mbind result_bind rbind snd iwc init_scalars Zmax Ztop Zbot].
  do 2 f_equal. rewrite Rabs_pos_eq; lra.
Qed.

(** The stages after the allocation never return, whatever the arrays. *)
Lemma after_allocation_raises (pr : profile) (vpop : Z) (constdz : option R)
    (s0 : store) :
  exists e, after_allocation pr vpop constdz s0 = Raise e.
Proof.
  unfold after_allocation.
  destruct (level_loop _ _ _ _) as [s [[]|e]]; [|by eexists].
  unfold layer_summary. rewrite layer_select_raises. by eexists.
Qed.

(** A call that passes the selector check stops at the allocation. *)
Lemma pmc_0d_model2b_allocation (pr : profile) (vpop : Z) (constdz : option R) :
  vpop_rejected vpop = false ->
  pmc_0d_model2b pr vpop constdz = Raise AttributeError.
Proof. unfold pmc_0d_model2b. by intros ->. Qed.

Lemma pmc_0d_model2b_raises (pr : profile) (vpop : Z) (constdz : option R) :
  exists e, pmc_0d_model2b pr vpop constdz = Raise e.
Proof.
  unfold pmc_0d_model2b. destruct (vpop_rejected vpop); by eexists.
Qed.

(** ** The selector check *)

Lemma lor_1_even (v : Z) : Z.even v = true -> Z.lor 1 v = (v + 1)%Z.
Proof.
  intros H. rewrite Z.add_comm. symmetry. apply Z.add_nocarry_lor.
  apply Z.bits_inj'. intros n Hn. rewrite Z.land_spec, Z.bits_0.
  destruct (decide (n = 0%Z)) as [->|Hne].
  - by rewrite !Z.bit0_odd, <- (Z.negb_even v), H, andb_false_r.
  - replace 1%Z with (2 ^ 0)%Z by done. rewrite Z.pow2_bits_eqb by lia.
    by rewrite (proj2 (Z.eqb_neq 0 n)) by lia.
Qed.

Lemma lor_1_odd (v : Z) : Z.odd v = true -> Z.lor 1 v = v.
Proof.
  intros H. apply Z.bits_inj'. intros n Hn. rewrite Z.lor_spec.
  destruct (decide (n = 0%Z)) as [->|Hne].
  - by rewrite !Z.bit0_odd, H.
  - replace 1%Z with (2 ^ 0)%Z by done. rewrite Z.pow2_bits_eqb by lia.
    by rewrite (proj2 (Z.eqb_neq 0 n)) by lia.
Qed.

(** The check rejects exactly the even selectors from 4 on. *)
Lemma vpop_rejected_spec (vpop : Z) :
  vpop_rejected vpop = true <-> Z.even vpop = true /\ (4 <= vpop)%Z.
Proof.
  unfold vpop_rejected. destruct (Z.even vpop) eqn:E.
  - rewrite (lor_1_even _ E), andb_true_iff, Z.ltb_lt, Z.gtb_gt.
    assert (vpop <> 3%Z) by (intros ->; done). split; [intros []|intros []]; split; (done || lia).
  - rewrite lor_1_odd by (by rewrite <- Z.negb_even, E).
    rewrite Z.ltb_irrefl. simpl. split; [done | by intros []].
Qed.

(** C3: the selectors 1, 2 and 3 pass the check and 4 is rejected, but 0
    passes it as well (and so do 5 and -1): with selector 0 the routine does
    not stop at the check but goes on to the allocation of line 71, where it
    ends in [AttributeError]; run from allocated arrays, the stages that
    follow end in [TypeError]. *)
Theorem vpop_check_misses_invalid :
  vpop_rejected 1 = false /\ vpop_rejected 2 = false /\ vpop_rejected 3 = false /\
  vpop_rejected 4 = true /\
  vpop_rejected 0 = false /\ vpop_rejected 5 = false /\ vpop_rejected (-1) = false /\
  pmc_0d_model2b (Profile [85] [0] [0.01] [8]) 0 None = Raise AttributeError /\
  after_allocation (Profile [85] [0] [0.01] [8]) 0 None (init_store 1) = Raise TypeError.
Proof.
  repeat split; try reflexivity.
  unfold after_allocation.
  change (length (z (Profile [85] [0] [0.01] [8]))) with 1%nat.
  change (seq 0 1) with [0%nat]. unfold level_loop.
  unfold mbind at 1, M_bind at 1, m_bind at 1.
  rewrite (level_skipped _ 0 0 0) by (done || lra).
  reflexivity.
Qed.

(** ** The saturation pressure stored by the routine *)

Lemma sat_pressure_spec (vpop : Z) :
  (1 <= vpop <= 3)%Z -> sat_pressure vpop = Some (spec_saturation vpop).
Proof.
  intros H. assert (vpop = 1 \/ vpop = 2 \/ vpop = 3)%Z as [-> | [-> | ->]] by lia;
    reflexivity.
Qed.

(** C5: for a valid selector and a temperature [T > 0], the pressure the
    loop body stores in [p_ice[i]] is the selected formula at [T], and the
    table entry of index [k] is the selected formula at [50 + 3k], each with
    its factor 0.01. *)
Theorem saturation_pressure_formulas (vpop : Z) (pr : profile) (i : nat) (T : R)
    (s : store) :
  (1 <= vpop <= 3)%Z ->
  0 < T ->
  t pr !! i = Some T ->
  (i < length (p_ice s))%nat ->
  p_ice (level pr vpop i s).1 !! i = Some (spec_saturation vpop T) /\
  px vpop = Some (spec_saturation vpop <$> tx) /\
  forall k, (k < 300)%nat ->
    (spec_saturation vpop <$> tx) !! k = Some (spec_saturation vpop (INR k * 3 + 50)).
Proof.
  intros Hv HT Ht Hi. pose proof (sat_pressure_spec vpop Hv) as Hf.
  split; [|split].
  - rewrite (level_p_ice pr vpop _ i T s Hf Ht HT).
    by apply list_lookup_insert_eq.
  - unfold px. by rewrite Hf.
  - intros k Hk. rewrite list_lookup_fmap.
    by rewrite (proj2 (tx_lookup k _) (conj Hk eq_refl)).
Qed.

Lemma saturation_pressure_formulas_witness :
  p_ice (level (Profile [85] [140] [0.01] [8]) 1 0 (init_store 1)).1 !! 0%nat
  = Some (0.01 * exp (9.550426 - 5723.265 / 140 + 3.53068 * ln 140 - 0.00728332 * 140)).
Proof.
  apply (saturation_pressure_formulas 1 (Profile [85] [140] [0.01] [8]) 0 140
           (init_store 1)); [lia | lra | reflexivity | simpl; lia].
Defined.

(** ** Exact hits on the table of selector 3 *)

Lemma bracket_interpolation_safe_witness :
  let f := fun T : R => 0.01 * exp (28.868 - 6132.935 / T) in
  let T0 := INR 0 * 3 + 50 in
  let T1 := INR 1 * 3 + 50 in
  f T0 < f T1 <= f T1 /\ f T0 <> f T1 /\ log10 (f T1) - log10 (f T0) <> 0 /\
  T0 <> 0 /\ T1 <> 0 /\
  1 / T1 - dsds (f T0) (f T1) (f T1) * (1 / T1 - 1 / T0) <> 0 /\
  T0 < interp (f T0) T0 (f T1) T1 (f T1) <= T1 /\
  50 <= interp (f T0) T0 (f T1) T1 (f T1) <= 947.
Proof.
  intros f T0 T1.
  apply (bracket_interpolation_safe 3 (f <$> tx) (f T1) (f T0) T0 (f T1) T1).
  - reflexivity.
  - apply (bracket_below_exact 3 (f <$> tx) 0 (f T0) (f T1)); reflexivity.
  - apply (bracket_above_exact 3 (f <$> tx) 1 (f T1)); reflexivity.
Defined.

(** ** The frost point on concrete levels *)

(** First table entry: with [p_h2o] equal to the first table pressure
    nothing in the table is strictly smaller, the search below keeps the
    integer defaults [p1 = 0], [t1 = 0], and [t_ice[0]] is left at zero, not
    at [T_0 = 50]. *)
Lemma roundtrip_fails_at_first_anchor :
  let f := fun T : R => 0.01 * exp (28.868 - 6132.935 / T) in
  let pr := Profile [85] [140] [f 50] [1.0e6] in
  px 3 = Some (f <$> tx) /\
  (f <$> tx) !! 0%nat = Some (f 50) /\ tx !! 0%nat = Some 50 /\
  f 50 * 1.0e6 * 1.0e-6 = f 50 /\
  bracket_below (f <$> tx) tx (f 50 * 1.0e6 * 1.0e-6) = Ok (VInt 0, VInt 0) /\
  t_ice (level_loop pr 3 (seq 0 1) (init_store 1)).1 = [0] /\
  (0 : R) <> 50.
Proof.
  intros f pr.
  assert (E50 : INR 0 * 3 + 50 = 50) by (simpl; lra).
  assert (H0 : (f <$> tx) !! 0%nat = Some (f 50)).
  { replace (f 50) with (f (INR 0 * 3 + 50)) by (by rewrite E50). reflexivity. }
  assert (Hv : f 50 * 1.0e6 * 1.0e-6 = f 50) by (unfold f; lra).
  split; [reflexivity|]. split; [exact H0|].
  split; [apply tx_lookup; split; [lia | by rewrite E50]|].
  split; [exact Hv|].
  split; [rewrite Hv; by apply (bracket_below_first 3)|].
  split; [by rewrite level_loop_keeps_t_ice | lra].
Qed.

(** C1: on the level [z = 85 km], [T = 140 K], [P = 0.01 mb],
    [h2o = 8 ppmv] with selector 1, run from allocated arrays, the guard of
    the interpolation raises [TypeError]: the loop stops there, [t_ice[0]]
    is still zero and the stages after the allocation return nothing.  The
    routine as a whole does not even get that far: it ends in
    [AttributeError] at the allocation. *)
Theorem frost_point_guard_fails :
  let pr := Profile [85] [140] [0.01] [8] in
  (level_loop pr 1 (seq 0 1) (init_store 1)).2 = Raise TypeError /\
  t_ice (level_loop pr 1 (seq 0 1) (init_store 1)).1 = [0] /\
  after_allocation pr 1 None (init_store 1) = Raise TypeError /\
  pmc_0d_model2b pr 1 None = Raise AttributeError.
Proof.
  intros pr.
  assert (H : (level pr 1 0 (init_store 1)).2 = Raise TypeError).
  { apply (level_raises_type_error pr 1 0 140 0.01 8);
      [lia | reflexivity | lra | reflexivity | reflexivity | simpl; lia | simpl; lia]. }
  assert (H' : (level_loop pr 1 (seq 0 1) (init_store 1)).2 = Raise TypeError).
  { change (seq 0 1) with [0%nat]. unfold level_loop.
    unfold mbind at 1, M_bind at 1, m_bind at 1.
    destruct (level pr 1 0 (init_store 1)) as [s' [[]|e]]; simpl in *; congruence. }
  split; [done|]. split; [by rewrite level_loop_keeps_t_ice|].
  split; [|reflexivity].
  unfold after_allocation. change (length (z pr)) with 1%nat.
  destruct (level_loop pr 1 (seq 0 1) (init_store 1)) as [s' [[]|e]]; simpl in *; congruence.
Qed.

(** The same on a level whose partial pressure is the table pressure of
    index 1: the bracket [(P_0, 50)], [(P_1, 53)] is found, the four
    conditions of the guard hold jointly and the interpolation would give
    53, but [t_ice[0]] stays zero. *)
Lemma frost_point_lost_on_valid_bracket :
  let f := fun T : R => 0.01 * exp (28.868 - 6132.935 / T) in
  let pr := Profile [85] [140] [f (INR 1 * 3 + 50)] [1.0e6] in
  let v := f (INR 1 * 3 + 50) * 1.0e6 * 1.0e-6 in
  bracket_below (f <$> tx) tx v = Ok (VFloat (f (INR 0 * 3 + 50)), VFloat (INR 0 * 3 + 50)) /\
  bracket_above (f <$> tx) tx v = Ok (VFloat (f (INR 1 * 3 + 50)), VFloat (INR 1 * 3 + 50)) /\
  spec_frost_guard (f <$> tx) v (f (INR 0 * 3 + 50)) (f (INR 1 * 3 + 50)) = true /\
  interp (f (INR 0 * 3 + 50)) (INR 0 * 3 + 50) (f (INR 1 * 3 + 50)) (INR 1 * 3 + 50) v = 53 /\
  (level_loop pr 3 (seq 0 1) (init_store 1)).2 = Raise TypeError /\
  t_ice (level_loop pr 3 (seq 0 1) (init_store 1)).1 = [0].
Proof.
  intros f pr v.
  assert (Hv : v = f (INR 1 * 3 + 50)) by (unfold v, f; lra).
  rewrite Hv. split; [|split; [|split; [|split; [|split]]]].
  - apply (bracket_below_exact 3 (f <$> tx) 0); reflexivity.
  - apply (bracket_above_exact 3 (f <$> tx) 1); reflexivity.
  - apply (spec_frost_guard_exact 3 (f <$> tx) 0); reflexivity.
  - rewrite interp_exact; simpl; lra.
  - assert (H : (level pr 3 0 (init_store 1)).2 = Raise TypeError).
    { apply (level_raises_type_error pr 3 0 140 (f (INR 1 * 3 + 50)) 1.0e6);
        [lia | reflexivity | lra | reflexivity | reflexivity | simpl; lia | simpl; lia]. }
    change (seq 0 1) with [0%nat]. unfold level_loop.
    unfold mbind at 1, M_bind at 1, m_bind at 1.
    destruct (level pr 3 0 (init_store 1)) as [s' [[]|e]]; simpl in *; congruence.
  - by rewrite level_loop_keeps_t_ice.
Qed.

(** * Further properties *)

(** ** The table *)

(** X2: for a selector that binds [px], the table has 300 rows, the
    temperatures are [50 + 3k] and lie in 50..947, the pressures are
    positive and strictly increasing with the row index. *)
Theorem table_sorted (vpop : Z) (pxs : list R) :
  px vpop = Some pxs ->
  length pxs = 300%nat /\ length tx = 300%nat /\
  (forall k T, tx !! k = Some T -> T = INR k * 3 + 50 /\ 50 <= T <= 947) /\
  (forall k P, pxs !! k = Some P -> 0 < P) /\
  (forall i j x y, pxs !! i = Some x -> pxs !! j = Some y -> (i < j)%nat -> x < y).
Proof.
  intros Hpx. split; [by eapply px_length|]. split; [apply tx_length|].
  split; [|split].
  - intros k T HT. split; [by apply tx_lookup in HT as [_ ->] | by eapply tx_range].
  - intros k P HP. by eapply px_pos.
  - intros i j x y Hi Hj Hij. by eapply px_increasing.
Qed.

Lemma table_sorted_witness :
  let f := fun T : R => 0.01 * exp (28.868 - 6132.935 / T) in
  length (f <$> tx) = 300%nat /\ length tx = 300%nat /\
  (forall k T, tx !! k = Some T -> T = INR k * 3 + 50 /\ 50 <= T <= 947) /\
  (forall k P, (f <$> tx) !! k = Some P -> 0 < P) /\
  (forall i j x y, (f <$> tx) !! i = Some x -> (f <$> tx) !! j = Some y ->
                   (i < j)%nat -> x < y).
Proof. intros f. by apply (table_sorted 3 (f <$> tx)). Defined.

(** ** The equilibrium solver *)

Lemma init_store_allocated (n : nat) : allocated n (init_store n).
Proof. unfold allocated, init_store; simpl. by rewrite !length_replicate. Qed.

Lemma allocated_set (n i : nat) (x : R) (s : store) :
  allocated n s ->
  allocated n (set_t_ice i x s) /\ allocated n (set_p_ice i x s) /\
  allocated n (set_h2o_sat i x s) /\ allocated n (set_s_ice i x s) /\
  allocated n (set_v_ice i x s) /\ allocated n (set_m_ice i x s) /\
  allocated n (set_h2o_ice i x s).
Proof.
  intros (H1 & H2 & H3 & H4 & H5 & H6 & H7). unfold allocated; simpl.
  rewrite !length_insert. repeat split; done.
Qed.

Lemma level_allocated (n : nat) (pr : profile) (vpop : Z) (i : nat) :
  preserves (allocated n) (level pr vpop i).
Proof.
  apply level_preserves.
  - intros x s Hs. destruct (allocated_set n i x s Hs) as (_ & H1 & H2 & H3 & H4 & H5 & H6).
    repeat split; apply H1 || apply H2 || apply H3 || apply H4 || apply H5 || apply H6.
  - intros x s Hs. by destruct (allocated_set n i x s Hs) as (H & _).
Qed.

(** The loop body on a level with positive temperature and a valid
    selector: the solver writes its values, then the guard raises. *)
Lemma level_processed (pr : profile) (vpop : Z) (f : R -> R) (n i : nat)
    (ti pi hi : R) (s : store) :
  sat_pressure vpop = Some f ->
  t pr !! i = Some ti -> 0 < ti ->
  p pr !! i = Some pi -> h2o pr !! i = Some hi ->
  allocated n s -> (i < n)%nat ->
  level pr vpop i s = (after_level f i ti pi hi s, Raise TypeError).
Proof.
  intros Hf Ht Hpos Hp Hh (H1 & H2 & H3 & H4 & H5 & H6 & H7) Hi.
  assert (Hpx : px vpop = Some (f <$> tx)) by (unfold px; by rewrite Hf).
  unfold level, after_level.
  rewrite (run_lift_Ok _ ti) by (by apply index_Ok).
  rewrite (proj2 (Rgtb_true ti 0) Hpos), Hf, run_write.
  rewrite (run_read_Ok _ _ (f ti)) by (apply list_lookup_insert_eq; lia).
  rewrite (run_lift_Ok _ pi) by (by apply index_Ok).
  rewrite run_write.
  rewrite (run_lift_Ok _ hi) by (by apply index_Ok).
  rewrite (run_read_Ok _ _ (1.0e6 * f ti / pi))
    by (apply list_lookup_insert_eq; simpl; lia).
  rewrite run_write. cbv zeta.
  rewrite Hpx.
  assert (Hlen : length tx = length (f <$> tx)) by (by rewrite length_fmap).
  destruct (bracket_below_Ok (f <$> tx) tx (pi * hi * 1.0e-6) Hlen) as [lo Hlo].
  destruct (bracket_above_Ok (f <$> tx) tx (pi * hi * 1.0e-6) Hlen) as [up Hup].
  assert (Hg := frost_guard_type_error (f <$> tx) (pi * hi * 1.0e-6) lo.1 up.1
                  (px_nonempty _ _ Hpx)).
  destruct (Rgtb (hi - 1.0e6 * f ti / pi) 0.0).
  - repeat (rewrite ?run_bind_assoc, ?run_write; cbv beta).
    rewrite (run_lift_Ok _ (f <$> tx)) by done.
    rewrite (run_lift_Ok _ lo) by done.
    rewrite (run_lift_Ok _ up) by done.
    by rewrite (run_lift_Raise _ TypeError).
  - rewrite run_ret.
    rewrite (run_lift_Ok _ (f <$> tx)) by done.
    rewrite (run_lift_Ok _ lo) by done.
    rewrite (run_lift_Ok _ up) by done.
    by rewrite (run_lift_Raise _ TypeError).
Qed.

Lemma after_level_lookups (f : R -> R) (n i : nat) (ti pi hi : R) (s : store) :
  allocated n s -> (i < n)%nat ->
  let s' := after_level f i ti pi hi s in
  let hsat := 1.0e6 * f ti / pi in
  let n_xs := pi * 1.0e2 * (hi - hsat) * 1.0e-6 / (R_gas * ti) in
  t_ice s' = t_ice s /\
  p_ice s' !! i = Some (f ti) /\
  h2o_sat s' !! i = Some hsat /\
  s_ice s' !! i = Some (hi / hsat) /\
  (hsat < hi ->
     h2o_ice s' !! i = Some (hi - hsat) /\
     m_ice s' !! i = Some (1e9 * n_xs * Mww) /\
     v_ice s' !! i = Some (1.0e6 * n_xs * Mww / di)) /\
  (hi <= hsat ->
     h2o_ice s' = h2o_ice s /\ m_ice s' = m_ice s /\ v_ice s' = v_ice s).
Proof.
  intros (H1 & H2 & H3 & H4 & H5 & H6 & H7) Hi. cbv zeta. unfold after_level.
  destruct (Rgtb (hi - 1.0e6 * f ti / pi) 0.0) eqn:E; simpl.
  - apply Rgtb_true in E.
    repeat split; try (apply list_lookup_insert_eq; lia); intros; lra.
  - apply Rgtb_false in E.
    repeat split; try (apply list_lookup_insert_eq; lia); intros; lra.
Qed.

(** X5: on a level with [T > 0], a valid selector and [P <> 0], the loop
    body stores [h2o_sat[i] = 1e6 * p_ice[i] / P], so that
    [h2o_sat[i] * P = 1e6 * p_ice[i]], and a saturation ratio with
    [s_ice[i] * h2o_sat[i] = h2o[i]]. *)
Theorem level_saturation_ratio (pr : profile) (vpop : Z) (f : R -> R) (n i : nat)
    (ti pi hi : R) (s : store) :
  sat_pressure vpop = Some f ->
  t pr !! i = Some ti -> 0 < ti ->
  p pr !! i = Some pi -> pi <> 0 -> h2o pr !! i = Some hi ->
  allocated n s -> (i < n)%nat ->
  exists pice hsat sice,
    p_ice (level pr vpop i s).1 !! i = Some pice /\
    h2o_sat (level pr vpop i s).1 !! i = Some hsat /\
    s_ice (level pr vpop i s).1 !! i = Some sice /\
    hsat = 1.0e6 * pice / pi /\
    hsat * pi = 1.0e6 * pice /\
    sice * hsat = hi.
Proof.
  intros Hf Ht Hpos Hp Hpi Hh Ha Hi.
  rewrite (level_processed pr vpop f n i ti pi hi s) by done. simpl.
  destruct (after_level_lookups f n i ti pi hi s Ha Hi) as (_ & Hp' & Hs & Hr & _).
  exists (f ti), (1.0e6 * f ti / pi), (hi / (1.0e6 * f ti / pi)).
  pose proof (sat_pressure_pos vpop f ti Hf) as Hfp.
  assert (Hne : 1.0e6 * f ti / pi <> 0).
  { unfold Rdiv. apply Rmult_integral_contrapositive_currified; [lra|].
    by apply Rinv_neq_0_compat. }
  repeat split; try done.
  - field. done.
  - field. repeat split; [done | lra | lra].
Qed.

(** X6: on a level with [T > 0], [P > 0] and [h2o] above the saturation
    mixing ratio, the excess is stored as [h2o_ice[i]] with
    [h2o_ice[i] + h2o_sat[i] = h2o[i]], the saturation ratio is above 1, and
    the ice mass density is positive, equal to
    [1e9 * (P * 1e2 * h2o_ice * 1e-6 / (R * T)) * Mww] and to
    [1000 * di * v_ice[i]]. *)
Theorem level_supersaturated (pr : profile) (vpop : Z) (f : R -> R) (n i : nat)
    (ti pi hi : R) (s : store) :
  sat_pressure vpop = Some f ->
  t pr !! i = Some ti -> 0 < ti ->
  p pr !! i = Some pi -> 0 < pi -> h2o pr !! i = Some hi ->
  allocated n s -> (i < n)%nat ->
  1.0e6 * f ti / pi < hi ->
  exists hsat sice ice m v,
    h2o_sat (level pr vpop i s).1 !! i = Some hsat /\
    s_ice (level pr vpop i s).1 !! i = Some sice /\
    h2o_ice (level pr vpop i s).1 !! i = Some ice /\
    m_ice (level pr vpop i s).1 !! i = Some m /\
    v_ice (level pr vpop i s).1 !! i = Some v /\
    ice + hsat = hi /\ 0 < ice /\ 1 < sice /\
    m = 1e9 * (pi * 1.0e2 * ice * 1.0e-6 / (R_gas * ti)) * Mww /\
    0 < m /\ m = 1000 * di * v.
Proof.
  intros Hf Ht Hpos Hp Hpi Hh Ha Hi Hsup.
  rewrite (level_processed pr vpop f n i ti pi hi s) by done. simpl.
  destruct (after_level_lookups f n i ti pi hi s Ha Hi) as (_ & _ & Hs & Hr & Hice & _).
  destruct (Hice Hsup) as (Hi1 & Hi2 & Hi3).
  pose proof (sat_pressure_pos vpop f ti Hf) as Hfp.
  set (hsat := 1.0e6 * f ti / pi) in *.
  assert (Hsat : 0 < hsat).
  { unfold hsat, Rdiv. apply Rmult_lt_0_compat; [lra | by apply Rinv_0_lt_compat]. }
  set (n_xs := pi * 1.0e2 * (hi - hsat) * 1.0e-6 / (R_gas * ti)) in *.
  assert (Hn : 0 < n_xs).
  { unfold n_xs, Rdiv, R_gas.
    apply Rmult_lt_0_compat; [|apply Rinv_0_lt_compat; lra].
    apply Rmult_lt_0_compat; [|lra].
    apply Rmult_lt_0_compat; [|lra].
    apply Rmult_lt_0_compat; lra. }
  exists hsat, (hi / hsat), (hi - hsat), (1e9 * n_xs * Mww), (1.0e6 * n_xs * Mww / di).
  repeat split; try done.
  - lra.
  - lra.
  - apply (Rmult_lt_reg_r hsat); [done|]. unfold Rdiv.
    rewrite Rmult_assoc, Rinv_l by lra. lra.
  - unfold Mww. nra.
  - set (w := 1.0e6 * n_xs * Mww).
    replace (1000 * di * (w / di)) with (1000 * w * (di * / di))
      by (unfold Rdiv; ring).
    rewrite Rinv_r by (unfold di; lra). unfold w, Mww. lra.
Qed.

(** X7: on a level with [T > 0], [P > 0] and [h2o] at most the saturation
    mixing ratio, the loop body leaves [h2o_ice], [m_ice] and [v_ice]
    untouched and stores a saturation ratio of at most 1. *)
Theorem level_subsaturated (pr : profile) (vpop : Z) (f : R -> R) (n i : nat)
    (ti pi hi : R) (s : store) :
  sat_pressure vpop = Some f ->
  t pr !! i = Some ti -> 0 < ti ->
  p pr !! i = Some pi -> 0 < pi -> h2o pr !! i = Some hi ->
  allocated n s -> (i < n)%nat ->
  hi <= 1.0e6 * f ti / pi ->
  h2o_ice (level pr vpop i s).1 = h2o_ice s /\
  m_ice (level pr vpop i s).1 = m_ice s /\
  v_ice (level pr vpop i s).1 = v_ice s /\
  exists sice, s_ice (level pr vpop i s).1 !! i = Some sice /\ sice <= 1.
Proof.
  intros Hf Ht Hpos Hp Hpi Hh Ha Hi Hsub.
  rewrite (level_processed pr vpop f n i ti pi hi s) by done. simpl.
  destruct (after_level_lookups f n i ti pi hi s Ha Hi) as (_ & _ & _ & Hr & _ & Hno).
  destruct (Hno Hsub) as (H1 & H2 & H3).
  pose proof (sat_pressure_pos vpop f ti Hf) as Hfp.
  assert (Hsat : 0 < 1.0e6 * f ti / pi).
  { unfold Rdiv. apply Rmult_lt_0_compat; [lra | by apply Rinv_0_lt_compat]. }
  repeat split; try done.
  eexists. split; [exact Hr|].
  apply (Rmult_le_reg_r (1.0e6 * f ti / pi)); [done|]. unfold Rdiv at 1.
  rewrite Rmult_assoc, Rinv_l by lra. lra.
Qed.

(** ** The loop over altitude *)

Lemma same_at_set (i j : nat) (s0 : store) : i <> j ->
  forall x s, same_at i s0 s ->
    same_at i s0 (set_t_ice j x s) /\
    same_at i s0 (set_p_ice j x s) /\ same_at i s0 (set_h2o_sat j x s) /\
    same_at i s0 (set_s_ice j x s) /\ same_at i s0 (set_v_ice j x s) /\
    same_at i s0 (set_m_ice j x s) /\ same_at i s0 (set_h2o_ice j x s).
Proof.
  intros Hij x s (H1 & H2 & H3 & H4 & H5 & H6 & H7).
  unfold same_at; simpl.
  repeat split; try done; by rewrite list_lookup_insert_ne.
Qed.

(** X3: one turn of the loop over altitude, at index [j], leaves the
    entries of every other index [i] of the seven arrays as they were,
    whether it returns or raises. *)
Theorem level_writes_own_index (pr : profile) (vpop : Z) (i j : nat) (s : store) :
  i <> j -> same_at i s (level pr vpop j s).1.
Proof.
  intros Hij.
  apply (preserves_run (same_at i s)); [|done].
  apply level_preserves.
  - intros x s' Hs. destruct (same_at_set i j s Hij x s' Hs) as (_ & H). exact H.
  - intros x s' Hs. by destruct (same_at_set i j s Hij x s' Hs) as (H & _).
Qed.

Lemma level_loop_allocated (pr : profile) (vpop : Z) (levels : list nat) (nz : nat) :
  preserves (allocated nz) (level_loop pr vpop levels).
Proof.
  apply level_loop_preserves. intros i _. apply level_allocated.
Qed.

Lemma level_same_at (pr : profile) (vpop : Z) (i j : nat) (s0 : store) :
  i <> j -> preserves (same_at i s0) (level pr vpop j).
Proof.
  intros Hij. apply level_preserves.
  - intros x s' Hs. destruct (same_at_set i j s0 Hij x s' Hs) as (_ & H). exact H.
  - intros x s' Hs. by destruct (same_at_set i j s0 Hij x s' Hs) as (H & _).
Qed.

(** The loop over a range of skipped levels does nothing. *)
Lemma level_loop_skipped (pr : profile) (vpop : Z) (a n : nat) (s : store) :
  (forall j, (a <= j < a + n)%nat -> exists tj, t pr !! j = Some tj /\ tj <= 0) ->
  level_loop pr vpop (seq a n) s = (s, Ok tt).
Proof.
  revert a. induction n as [|n IH]; intros a H; [done|].
  simpl. destruct (H a ltac:(lia)) as (tj & Htj & Hle).
  unfold mbind at 1, M_bind at 1, m_bind at 1.
  rewrite (level_skipped pr vpop a tj s Htj Hle).
  apply IH. intros j Hj. apply H. lia.
Qed.

Lemma level_loop_app (pr : profile) (vpop : Z) (l1 l2 : list nat) (s : store) :
  level_loop pr vpop (l1 ++ l2) s =
  match level_loop pr vpop l1 s with
  | (s', Ok _) => level_loop pr vpop l2 s'
  | (s', Raise e) => (s', Raise e)
  end.
Proof.
  revert s. induction l1 as [|i l1 IH]; intros s; [done|].
  simpl. unfold mbind, M_bind, m_bind.
  destruct (level pr vpop i s) as [s' [[]|e]]; [apply IH | done].
Qed.

(** X9: run from allocated arrays with a valid selector, the loop over
    altitude stops with [TypeError] at the first level whose temperature is
    positive.  Where the pressure of that level is not zero, the store it
    leaves holds the values of the equilibrium solver at that level, and
    every other level holds what it held before the loop. *)
Theorem level_loop_stops_at_first_positive (pr : profile) (vpop : Z) (f : R -> R)
    (i0 : nat) (ti pi hi : R) (s0 : store) :
  sat_pressure vpop = Some f ->
  allocated (length (z pr)) s0 ->
  (i0 < length (z pr))%nat ->
  (forall j, (j < i0)%nat -> exists tj, t pr !! j = Some tj /\ tj <= 0) ->
  t pr !! i0 = Some ti -> 0 < ti ->
  p pr !! i0 = Some pi -> pi <> 0 -> h2o pr !! i0 = Some hi ->
  let nz := length (z pr) in
  level_loop pr vpop (seq 0 nz) s0
    = (after_level f i0 ti pi hi s0, Raise TypeError) /\
  forall j, j <> i0 -> same_at j s0 (level_loop pr vpop (seq 0 nz) s0).1.
Proof.
  intros Hf Ha Hi0 Hbefore Ht Hpos Hp _ Hh nz.
  assert (E : level_loop pr vpop (seq 0 nz) s0
              = (after_level f i0 ti pi hi s0, Raise TypeError)).
  { replace nz with (i0 + S (nz - S i0))%nat at 1 by (unfold nz; lia).
    rewrite seq_app, level_loop_app.
    rewrite level_loop_skipped by (intros j Hj; apply Hbefore; lia).
    simpl. unfold mbind at 1, M_bind at 1, m_bind at 1.
    by rewrite (level_processed pr vpop f nz i0 ti pi hi s0) by done. }
  split; [exact E|].
  intros j Hne. rewrite E. cbn [fst].
  assert (E2 : after_level f i0 ti pi hi s0 = (level pr vpop i0 s0).1).
  { by rewrite (level_processed pr vpop f nz i0 ti pi hi s0) by done. }
  rewrite E2.
  apply (preserves_run (same_at j s0)); [by apply level_same_at | done].
Qed.

(** The result of one turn on a well-formed profile with a valid selector. *)
Lemma level_Ok_or_TypeError (pr : profile) (vpop : Z) (n i : nat) (s : store) :
  (1 <= vpop <= 3)%Z ->
  (i < n)%nat -> length (t pr) = n -> length (p pr) = n -> length (h2o pr) = n ->
  allocated n s ->
  (level pr vpop i s).2 = Ok tt \/ (level pr vpop i s).2 = Raise TypeError.
Proof.
  intros Hv Hi Ht Hp Hh Ha.
  destruct (sat_pressure_valid vpop Hv) as [f Hf].
  destruct (lookup_lt_is_Some_2 (t pr) i) as [ti Hti]; [lia|].
  destruct (lookup_lt_is_Some_2 (p pr) i) as [pi Hpi]; [lia|].
  destruct (lookup_lt_is_Some_2 (h2o pr) i) as [hi Hhi]; [lia|].
  destruct (Rle_dec ti 0) as [Hle|Hgt].
  - left. by rewrite (level_skipped pr vpop i ti s).
  - right. by rewrite (level_processed pr vpop f n i ti pi hi s) by (done || lra).
Qed.

Lemma level_loop_Ok_or_TypeError (pr : profile) (vpop : Z) (n : nat)
    (levels : list nat) (s : store) :
  (1 <= vpop <= 3)%Z ->
  Forall (fun i => (i < n)%nat) levels ->
  length (t pr) = n -> length (p pr) = n -> length (h2o pr) = n ->
  allocated n s ->
  (level_loop pr vpop levels s).2 = Ok tt \/
  (level_loop pr vpop levels s).2 = Raise TypeError.
Proof.
  intros Hv Hl Ht Hp Hh. revert s.
  induction Hl as [|i levels Hi Hl IH]; intros s Ha; [by left|].
  simpl. unfold mbind at 1 2, M_bind at 1 2, m_bind at 1 2.
  pose proof (level_allocated n pr vpop i s Ha) as Ha'.
  destruct (level_Ok_or_TypeError pr vpop n i s Hv Hi Ht Hp Hh Ha) as [E|E];
    destruct (level pr vpop i s) as [s' [[]|e]]; simpl in *; try congruence.
  - by apply IH.
  - by right.
Qed.

(** X10: for a selector 1, 2 or 3 and input arrays of equal length, the
    stages after the allocation (lines 79-195), run from any seven arrays of
    length [nz], always end in [TypeError], from the guard of the frost
    point or from the layer selection. *)
Theorem after_allocation_type_error (pr : profile) (vpop : Z) (constdz : option R)
    (s0 : store) :
  (1 <= vpop <= 3)%Z ->
  length (t pr) = length (z pr) ->
  length (p pr) = length (z pr) ->
  length (h2o pr) = length (z pr) ->
  allocated (length (z pr)) s0 ->
  after_allocation pr vpop constdz s0 = Raise TypeError.
Proof.
  intros Hv Ht Hp Hh Ha. unfold after_allocation.
  destruct (level_loop_Ok_or_TypeError pr vpop (length (z pr)) (seq 0 (length (z pr)))
              s0 Hv) as [E|E]; try done.
  - apply Forall_forall. intros i Hi%elem_of_seq. lia.
  - destruct (level_loop _ _ _ _) as [s' [[]|e]]; simpl in *; [done | congruence].
  - destruct (level_loop _ _ _ _) as [s' [[]|e]]; simpl in *; congruence.
Qed.

(** ** Selectors outside 1, 2, 3 *)

Lemma sat_pressure_invalid (vpop : Z) :
  ~ (1 <= vpop <= 3)%Z -> sat_pressure vpop = None /\ px vpop = None.
Proof.
  intros H. unfold px, sat_pressure.
  destruct (Z.eqb_spec vpop 1); [lia|].
  destruct (Z.eqb_spec vpop 2); [lia|].
  destruct (Z.eqb_spec vpop 3); [lia|]. done.
Qed.

(** X8: with a selector other than 1, 2, 3 (one that passed the check, such
    as 0) no formula is selected: on a level with [T > 0] the loop body
    leaves [p_ice] and [t_ice] untouched and stops with [NameError] at the
    first use of the unbound table [px]. *)
Theorem level_unbound_table (pr : profile) (vpop : Z) (n i : nat) (ti pi hi : R)
    (s : store) :
  ~ (1 <= vpop <= 3)%Z ->
  t pr !! i = Some ti -> 0 < ti ->
  p pr !! i = Some pi -> h2o pr !! i = Some hi ->
  allocated n s -> (i < n)%nat ->
  (level pr vpop i s).2 = Raise NameError /\
  p_ice (level pr vpop i s).1 = p_ice s /\
  t_ice (level pr vpop i s).1 = t_ice s.
Proof.
  intros Hv Ht Hpos Hp Hh Ha Hi.
  destruct (sat_pressure_invalid vpop Hv) as [Hf Hpx].
  destruct Ha as (H1 & H2 & H3 & H4 & H5 & H6 & H7).
  destruct (lookup_lt_is_Some_2 (p_ice s) i) as [x Hx]; [lia|].
  unfold level.
  rewrite (run_lift_Ok _ ti) by (by apply index_Ok).
  rewrite (proj2 (Rgtb_true ti 0) Hpos), Hf, run_ret.
  rewrite (run_read_Ok _ _ x) by done.
  rewrite (run_lift_Ok _ pi) by (by apply index_Ok).
  rewrite run_write.
  rewrite (run_lift_Ok _ hi) by (by apply index_Ok).
  rewrite (run_read_Ok _ _ (1.0e6 * x / pi))
    by (apply list_lookup_insert_eq; simpl; lia).
  rewrite run_write. cbv zeta. rewrite Hpx.
  destruct (Rgtb (hi - 1.0e6 * x / pi) 0.0).
  - repeat (rewrite ?run_bind_assoc, ?run_write; cbv beta).
    by rewrite (run_lift_Raise _ NameError).
  - rewrite run_ret. by rewrite (run_lift_Raise _ NameError).
Qed.

(** ** Which exceptions the loop can raise *)

Lemma never_exits_bind {A B} (m : M A) (f : A -> M B) :
  never_exits m -> (forall a, never_exits (f a)) -> never_exits (m ≫= f).
Proof.
  intros Hm Hf s. specialize (Hm s). unfold mbind, M_bind, m_bind.
  destruct (m s) as [s' [a|e]]; simpl in *; [apply Hf|].
  intros [= ->]. by apply Hm.
Qed.

Lemma never_exits_lift {A} (r : result A) : r <> Raise SystemExit -> never_exits (lift r).
Proof. by intros H s. Qed.

Lemma never_exits_ret {A} (a : A) : never_exits (mret a).
Proof. by intros s. Qed.

Lemma never_exits_write (g : store -> store) : never_exits (write g).
Proof. by intros s. Qed.

Lemma index_no_exit (a : list R) (i : nat) : index a i <> Raise SystemExit.
Proof. unfold index. by destruct (a !! i). Qed.

Lemma never_exits_read (a : store -> list R) (i : nat) : never_exits (read a i).
Proof. intros s. apply index_no_exit. Qed.

Lemma rbind_no_exit {A B} (r : result A) (f : A -> result B) :
  r <> Raise SystemExit -> (forall a, f a <> Raise SystemExit) ->
  r ≫= f <> Raise SystemExit.
Proof.
  intros Hr Hf. destruct r as [a|e]; simpl; [apply Hf|].
  intros [= ->]. by apply Hr.
Qed.

Lemma bracket_below_no_exit (pxs txs : list R) (v : R) :
  bracket_below pxs txs v <> Raise SystemExit.
Proof.
  unfold bracket_below. destruct (last _) as [j|]; [|done].
  apply rbind_no_exit; [apply index_no_exit | intros p1].
  apply rbind_no_exit; [apply index_no_exit | done].
Qed.

Lemma bracket_above_no_exit (pxs txs : list R) (v : R) :
  bracket_above pxs txs v <> Raise SystemExit.
Proof.
  unfold bracket_above. destruct (head _) as [j|]; [|done].
  apply rbind_no_exit; [apply index_no_exit | intros p2].
  apply rbind_no_exit; [apply index_no_exit | done].
Qed.

Lemma py_num_no_exit (v : pyval) : py_num v <> Raise SystemExit.
Proof. by destruct v. Qed.

Lemma frost_guard_no_exit (pxs : list R) (v : R) (p1 p2 : pyval) :
  frost_guard pxs v p1 p2 <> Raise SystemExit.
Proof. unfold frost_guard. by destruct pxs. Qed.

Ltac never_exits_step :=
  first
    [ apply never_exits_ret
    | apply never_exits_write
    | apply never_exits_read
    | apply never_exits_lift;
        first [ apply index_no_exit | apply bracket_below_no_exit
              | apply bracket_above_no_exit | apply py_num_no_exit
              | apply frost_guard_no_exit | by case_match ]
    | apply never_exits_bind; [|intros ?]
    | match goal with
      | |- never_exits (if ?b then _ else _) => destruct b
      | |- never_exits (match ?x with Some _ => _ | None => _ end) => destruct x
      end ].

Lemma level_never_exits (pr : profile) (vpop : Z) (i : nat) :
  never_exits (level pr vpop i).
Proof. unfold level. cbv zeta. repeat never_exits_step. Qed.

Lemma level_loop_never_exits (pr : profile) (vpop : Z) (levels : list nat) :
  never_exits (level_loop pr vpop levels).
Proof.
  induction levels as [|i r IH]; simpl.
  - apply never_exits_ret.
  - apply never_exits_bind; [apply level_never_exits | by intros _].
Qed.

(** X1: whatever the profile, the routine ends in [SystemExit] (the
    [exit()] of the selector check) exactly when [vpop] is an even number
    from 4 on; for every other selector the check lets the call through and
    nothing later raises [SystemExit], neither the allocation nor, from any
    arrays, the stages that follow it. *)
Theorem system_exit_iff_even_from_4 (pr : profile) (vpop : Z) (constdz : option R) :
  (pmc_0d_model2b pr vpop constdz = Raise SystemExit <->
   Z.even vpop = true /\ (4 <= vpop)%Z) /\
  forall s0, after_allocation pr vpop constdz s0 <> Raise SystemExit.
Proof.
  split.
  - rewrite <- vpop_rejected_spec. unfold pmc_0d_model2b.
    destruct (vpop_rejected vpop); [done|]. split; [|done]. intros [=].
  - intros s0. unfold after_allocation.
    pose proof (level_loop_never_exits pr vpop (seq 0 (length (z pr))) s0) as H.
    destruct (level_loop _ _ _ _) as [s' [[]|e]]; simpl in *; [done | congruence].
Qed.

(** ** More on the bracket search *)

(** X11: on any table, the search below [p_h2o] keeps the integer defaults
    [p1 = 0], [t1 = 0] exactly when no table pressure is smaller than
    [p_h2o], and the search above keeps [p2 = 0], [t2 = 0] exactly when
    every table pressure is smaller than [p_h2o]. *)
Theorem bracket_defaults_iff (pxs txs : list R) (v : R) :
  length txs = length pxs ->
  (bracket_below pxs txs v = Ok (VInt 0, VInt 0) <-> forall x, x ∈ pxs -> v <= x) /\
  (bracket_above pxs txs v = Ok (VInt 0, VInt 0) <-> forall x, x ∈ pxs -> x < v).
Proof.
  intros Hlen. split; split.
  - intros E x [m Hm]%list_elem_of_lookup_1.
    destruct (bracket_below_cases pxs txs v Hlen)
      as [(j & q & s & E' & _) | [_ Hall]]; [congruence | by eapply Hall].
  - intros Hall.
    destruct (bracket_below_cases pxs txs v Hlen)
      as [(j & q & s & _ & Hq & _ & Hlt & _) | [E _]]; [|done].
    specialize (Hall q (list_elem_of_lookup_2 _ _ _ Hq)). lra.
  - intros E x [m Hm]%list_elem_of_lookup_1.
    destruct (bracket_above_cases pxs txs v Hlen)
      as [(j & q & s & E' & _) | [_ Hall]]; [congruence | by eapply Hall].
  - intros Hall.
    destruct (bracket_above_cases pxs txs v Hlen)
      as [(j & q & s & _ & Hq & _ & Hge & _) | [E _]]; [|done].
    specialize (Hall q (list_elem_of_lookup_2 _ _ _ Hq)). lra.
Qed.

Lemma bracket_defaults_iff_witness :
  bracket_below [2; 3] [50; 53] 1 = Ok (VInt 0, VInt 0) <->
  forall x, x ∈ [2; 3] -> 1 <= x.
Proof.
  by destruct (bracket_defaults_iff [2; 3] [50; 53] 1 eq_refl) as [H _].
Defined.

(** X12: on the routine's table both bounds are found exactly when
    [p_h2o] is strictly above the first table pressure and at most the
    last one. *)
Theorem bracket_found_iff_in_range (vpop : Z) (pxs : list R) (v lo hi : R) :
  px vpop = Some pxs ->
  pxs !! 0%nat = Some lo -> pxs !! 299%nat = Some hi ->
  (exists p1 t1 p2 t2,
      bracket_below pxs tx v = Ok (VFloat p1, VFloat t1) /\
      bracket_above pxs tx v = Ok (VFloat p2, VFloat t2))
  <-> lo < v <= hi.
Proof.
  intros Hpx Hlo Hhi.
  assert (Hlen : length tx = length pxs) by (by rewrite tx_length, (px_length _ _ Hpx)).
  split.
  - intros (p1 & t1 & p2 & t2 & E1 & E2).
    destruct (bracket_below_cases pxs tx v Hlen)
      as [(j1 & q1 & s1 & E1' & Hq1 & _ & Hlt & _) | [E1' _]]; [|congruence].
    destruct (bracket_above_cases pxs tx v Hlen)
      as [(j2 & q2 & s2 & E2' & Hq2 & _ & Hge & _) | [E2' _]]; [|congruence].
    assert (lo <= q1) by (eapply (px_monotone vpop pxs 0 j1); [done..|lia]).
    assert (q2 <= hi).
    { eapply (px_monotone vpop pxs j2 299); [done..|].
      apply lookup_lt_Some in Hq2. rewrite (px_length _ _ Hpx) in Hq2. lia. }
    lra.
  - intros [H1 H2].
    destruct (bracket_below_cases pxs tx v Hlen)
      as [(j1 & q1 & s1 & E1 & _) | [_ Hall]];
      [|specialize (Hall 0%nat lo Hlo); lra].
    destruct (bracket_above_cases pxs tx v Hlen)
      as [(j2 & q2 & s2 & E2 & _) | [_ Hall]];
      [|specialize (Hall 299%nat hi Hhi); lra].
    by exists q1, s1, q2, s2.
Qed.

(** X13: on the routine's table the two bounds found are consecutive rows
    [k] and [k + 1], so [t2 = t1 + 3], and no table pressure lies strictly
    between [p1] and [p2]. *)
Theorem bracket_adjacent_rows (vpop : Z) (pxs : list R) (v p1 t1 p2 t2 : R) :
  px vpop = Some pxs ->
  bracket_below pxs tx v = Ok (VFloat p1, VFloat t1) ->
  bracket_above pxs tx v = Ok (VFloat p2, VFloat t2) ->
  (exists k, pxs !! k = Some p1 /\ pxs !! S k = Some p2 /\
             t1 = INR k * 3 + 50 /\ t2 = t1 + 3) /\
  forall x, x ∈ pxs -> x <= p1 \/ p2 <= x.
Proof.
  intros Hpx Hlo Hhi.
  assert (Hlen : length tx = length pxs) by (by rewrite tx_length, (px_length _ _ Hpx)).
  split.
  - destruct (bracket_below_cases pxs tx v Hlen)
      as [(j1 & q1 & s1 & E1 & Hq1 & Hs1 & Hlt & Habove) | [E1 _]];
      rewrite E1 in Hlo; [|discriminate].
    destruct (bracket_above_cases pxs tx v Hlen)
      as [(j2 & q2 & s2 & E2 & Hq2 & Hs2 & Hge & Hbelow) | [E2 _]];
      rewrite E2 in Hhi; [|discriminate].
    assert (q1 = p1 /\ s1 = t1) as [-> ->] by (split; congruence).
    assert (q2 = p2 /\ s2 = t2) as [-> ->] by (split; congruence).
    assert (j2 = S j1) as ->.
    { destruct (lt_eq_lt_dec j2 (S j1)) as [[Hlt'|]|Hgt]; [|done|].
      - assert (p2 <= p1) by (eapply (px_monotone vpop pxs j2 j1); [done..|lia]). lra.
      - destruct (lookup_lt_is_Some_2 pxs (S j1)) as [x Hx].
        { apply lookup_lt_Some in Hq2. lia. }
        pose proof (Habove (S j1) x ltac:(lia) Hx).
        pose proof (Hbelow (S j1) x Hgt Hx). lra. }
    exists j1. split; [done|]. split; [done|].
    apply tx_lookup in Hs1 as [_ ->]. apply tx_lookup in Hs2 as [_ ->].
    split; [done|]. rewrite S_INR. lra.
  - intros x Hx. destruct (Rlt_le_dec x v) as [Hxv|Hxv].
    + left. by apply (bracket_tightest vpop pxs v p1 t1 p2 t2 Hpx Hlo Hhi x Hx).
    + right. by apply (bracket_tightest vpop pxs v p1 t1 p2 t2 Hpx Hlo Hhi x Hx).
Qed.

(** ** The block under [if (nk > 0)] *)

Lemma Reqb_true (x y : R) : Reqb x y = true <-> x = y.
Proof. unfold Reqb. by destruct (Req_dec_T x y). Qed.

Lemma take_idx_Forall2 (a : list R) (k : list nat) (xs : list R) :
  take_idx a k = Ok xs -> Forall2 (fun i x => a !! i = Some x) k xs.
Proof.
  revert xs. induction k as [|i k IH]; intros xs H; simpl in H.
  - injection H as <-. constructor.
  - apply rbind_Ok_inv in H as (x & Hx & H).
    apply rbind_Ok_inv in H as (ys & Hys & H). injection H as <-.
    constructor; [by apply index_Ok | by apply IH].
Qed.

Lemma take_idx_total (a : list R) (k : list nat) :
  Forall (fun i => (i < length a)%nat) k -> exists xs, take_idx a k = Ok xs.
Proof.
  induction 1 as [|i k Hi _ [xs IH]]; [by exists []|].
  destruct (lookup_lt_is_Some_2 a i Hi) as [x Hx].
  exists (x :: xs). simpl. rewrite (proj2 (index_Ok _ _ _) Hx). simpl.
  by rewrite IH.
Qed.

Lemma fold_left_Rmax_in (r : list R) (x : R) : fold_left Rmax r x ∈ x :: r.
Proof.
  revert x. induction r as [|a r IH]; intros x; simpl; [left|].
  specialize (IH (Rmax x a)). apply elem_of_cons in IH as [E | IH].
  - rewrite E. unfold Rmax. destruct (Rle_dec x a); [right; left | left].
  - right. by right.
Qed.

Lemma fold_left_Rmin_in (r : list R) (x : R) : fold_left Rmin r x ∈ x :: r.
Proof.
  revert x. induction r as [|a r IH]; intros x; simpl; [left|].
  specialize (IH (Rmin x a)). apply elem_of_cons in IH as [E | IH].
  - rewrite E. unfold Rmin. destruct (Rle_dec x a); [left | right; left].
  - right. by right.
Qed.

Lemma py_max_spec (a : list R) (mx : R) :
  py_max a = Ok mx -> mx ∈ a /\ forall x, x ∈ a -> x <= mx.
Proof.
  destruct a as [|x r]; [done|]. intros [= <-].
  split; [apply fold_left_Rmax_in | apply fold_left_Rmax_ge].
Qed.

Lemma py_min_spec (a : list R) (mn : R) :
  py_min a = Ok mn -> mn ∈ a /\ forall x, x ∈ a -> mn <= x.
Proof.
  destruct a as [|x r]; [done|]. intros [= <-].
  split; [apply fold_left_Rmin_in | apply fold_left_Rmin_le].
Qed.

(** What a successful [peak_altitude] returned. *)
Lemma peak_altitude_Ok (zs mice : list R) (k : list nat) (zl : R) :
  peak_altitude zs mice k = Ok zl ->
  exists pos l ml,
    k !! pos = Some l /\ zs !! l = Some zl /\ mice !! l = Some ml /\
    (forall j mj, j ∈ k -> mice !! j = Some mj -> mj <= ml) /\
    (forall pos' l' ml', (pos' < pos)%nat -> k !! pos' = Some l' ->
        mice !! l' = Some ml' -> ml' < ml).
Proof.
  unfold peak_altitude. intros H.
  apply rbind_Ok_inv in H as (mk & Hmk & H).
  apply rbind_Ok_inv in H as (mx & Hmx & H).
  apply rbind_Ok_inv in H as (l0 & Hl0 & H).
  apply rbind_Ok_inv in H as (lk & Hlk & H).
  apply index_Ok in H.
  apply take_idx_Forall2 in Hmk.
  apply py_max_spec in Hmx as [_ Hmax].
  destruct (head _) as [pos|] eqn:Eh; [|done]. injection Hl0 as ->.
  destruct (k !! l0) as [l|] eqn:Ek; [|done]. injection Hlk as ->.
  apply head_nonzero_from in Eh as (n & -> & Hn & Hfirst). simpl in Ek.
  rewrite list_lookup_fmap in Hn.
  destruct (mk !! n) as [ml|] eqn:Em; [|done].
  injection Hn as Hn. apply Reqb_true in Hn. subst ml.
  assert (Hml : mice !! lk = Some mx).
  { by destruct (Forall2_lookup_lr _ _ _ _ _ _ Hmk Ek Em). }
  exists n, lk, mx. repeat split; try done.
  - intros j mj [pj Hpj]%list_elem_of_lookup_1 Hmj.
    destruct (Forall2_lookup_l _ _ _ _ _ Hmk Hpj) as (y & Hy & Hjy).
    apply Hmax. rewrite Hmj in Hjy. injection Hjy as <-.
    by eapply list_elem_of_lookup_2.
  - intros pos' l' ml' Hlt Hk' Hm'.
    destruct (Forall2_lookup_l _ _ _ _ _ Hmk Hk') as (y & Hy & Hjy).
    rewrite Hm' in Hjy. injection Hjy as <-.
    specialize (Hfirst pos' Hlt). rewrite list_lookup_fmap, Hy in Hfirst.
    injection Hfirst as Hne.
    assert (ml' <= mx) by (apply Hmax; by eapply list_elem_of_lookup_2).
    assert (ml' <> mx) by (intros ->; by rewrite Reqb_refl in Hne).
    lra.
Qed.

(** X14: for a non-empty index set [k] within the arrays, [zmax] is the
    altitude of a level of [k] whose ice mass density is the largest over
    [k]; among equal maxima it is the first in the order of [k]. *)
Theorem peak_altitude_first_max (zs mice : list R) (k : list nat) :
  k <> [] ->
  Forall (fun i => (i < length zs)%nat /\ (i < length mice)%nat) k ->
  exists pos l zl ml,
    peak_altitude zs mice k = Ok zl /\
    k !! pos = Some l /\ zs !! l = Some zl /\ mice !! l = Some ml /\
    (forall j mj, j ∈ k -> mice !! j = Some mj -> mj <= ml) /\
    (forall pos' l' ml', (pos' < pos)%nat -> k !! pos' = Some l' ->
        mice !! l' = Some ml' -> ml' < ml).
Proof.
  intros Hne Hk.
  assert (exists zl, peak_altitude zs mice k = Ok zl) as [zl Hz].
  { unfold peak_altitude.
    destruct (take_idx_total mice k) as [mk Hmk].
    { eapply Forall_impl; [exact Hk | by intros i [_ ?]]. }
    rewrite Hmk. cbn [mbind result_bind rbind].
    pose proof (take_idx_Forall2 _ _ _ Hmk) as HF.
    destruct mk as [|x r].
    { apply Forall2_length in HF. by destruct k. }
    cbn [py_max mbind result_bind rbind]. set (mx := fold_left Rmax r x).
    pose proof (fold_left_Rmax_in r x) as [n Hn]%list_elem_of_lookup_1.
    fold mx in Hn.
    destruct (head (nonzero ((fun y => Reqb y mx) <$> x :: r))) as [l0|] eqn:Eh.
    - cbn [mbind result_bind rbind].
      apply head_nonzero_from in Eh as (n' & -> & Hn' & _).
      change (0 + n')%nat with n'.
      rewrite list_lookup_fmap in Hn'.
      destruct ((x :: r) !! n') as [y|] eqn:Ey; [|done].
      destruct (Forall2_lookup_r _ _ _ _ _ HF Ey) as (lk & Hlk & _).
      rewrite Hlk. cbn [mbind result_bind rbind].
      destruct (lookup_lt_is_Some_2 zs lk) as [zl Hzl].
      { by apply (Forall_lookup_1 _ _ _ _ Hk Hlk). }
      exists zl. by apply index_Ok.
    - exfalso. apply (head_nonzero_from_None _ _ Eh n).
      by rewrite list_lookup_fmap, Hn; simpl; rewrite Reqb_refl. }
  destruct (peak_altitude_Ok zs mice k zl Hz) as (pos & l & ml & H).
  by exists pos, l, zl, ml.
Qed.

Lemma peak_altitude_first_max_witness :
  exists pos l zl ml,
    peak_altitude [84; 85; 86] [3; 5; 5] [0; 1; 2]%nat = Ok zl /\
    [0; 1; 2]%nat !! pos = Some l /\ [84; 85; 86] !! l = Some zl /\
    [3; 5; 5] !! l = Some ml /\
    (forall j mj, j ∈ [0; 1; 2]%nat -> [3; 5; 5] !! j = Some mj -> mj <= ml) /\
    (forall pos' l' ml', (pos' < pos)%nat -> [0; 1; 2]%nat !! pos' = Some l' ->
        [3; 5; 5] !! l' = Some ml' -> ml' < ml).
Proof.
  apply (peak_altitude_first_max [84; 85; 86] [3; 5; 5] [0; 1; 2]%nat); [done|].
  repeat constructor; simpl; lia.
Defined.

(** X15: when the block under [if (nk > 0)] succeeds, [zbot] and [ztop]
    bound the altitudes of all levels of [k], [zbot <= zmax <= ztop], and
    the capitalised [Zmax], [Ztop], [Zbot] are unchanged. *)
Theorem layer_summary_from_ordered (zs mice : list R) (c : option R) (k : list nat)
    (sc sc' : scalars) :
  k <> [] ->
  layer_summary_from zs mice c k sc = Ok sc' ->
  exists zm zt zb,
    zmax sc' = Some zm /\ ztop sc' = Some zt /\ zbot sc' = Some zb /\
    zb <= zm <= zt /\
    (forall i zi, i ∈ k -> zs !! i = Some zi -> zb <= zi <= zt) /\
    Zmax sc' = Zmax sc /\ Ztop sc' = Ztop sc /\ Zbot sc' = Zbot sc.
Proof.
  intros Hne H.
  pose proof (layer_summary_from_capitals _ _ _ _ _ _ H) as (C1 & C2 & C3).
  unfold layer_summary_from in H. destruct k as [|k0 k]; [done|].
  apply rbind_Ok_inv in H as (zm & Hzm & H).
  apply rbind_Ok_inv in H as (zk & Hzk & H).
  apply rbind_Ok_inv in H as (zt & Hzt & H).
  apply rbind_Ok_inv in H as (zb & Hzb & H).
  apply rbind_Ok_inv in H as (w & _ & H). injection H as <-. simpl.
  apply take_idx_Forall2 in Hzk.
  apply py_max_spec in Hzt as [_ Hmax]. apply py_min_spec in Hzb as [_ Hmin].
  assert (Hin : forall i zi, i ∈ k0 :: k -> zs !! i = Some zi -> zi ∈ zk).
  { intros i zi [pi Hpi]%list_elem_of_lookup_1 Hzi.
    destruct (Forall2_lookup_l _ _ _ _ _ Hzk Hpi) as (y & Hy & Hiy).
    rewrite Hzi in Hiy. injection Hiy as <-. by eapply list_elem_of_lookup_2. }
  destruct (peak_altitude_Ok _ _ _ _ Hzm) as (pos & l & ml & Hl & Hzl & _).
  assert (zm ∈ zk) by (eapply Hin; [by eapply list_elem_of_lookup_2 | done]).
  exists zm, zt, zb. repeat split; try done.
  - by apply Hmin.
  - by apply Hmax.
  - apply Hmin. by eapply Hin.
  - apply Hmax. by eapply Hin.
Qed.

Lemma layer_summary_from_ordered_witness :
  exists zm zt zb,
    zmax (Scalars 0 0 0 5 (Some 85) (Some 85) (Some 85)) = Some zm /\
    ztop (Scalars 0 0 0 5 (Some 85) (Some 85) (Some 85)) = Some zt /\
    zbot (Scalars 0 0 0 5 (Some 85) (Some 85) (Some 85)) = Some zb /\
    zb <= zm <= zt /\
    (forall i zi, i ∈ [1%nat] -> [84; 85; 86] !! i = Some zi -> zb <= zi <= zt) /\
    Zmax (Scalars 0 0 0 5 (Some 85) (Some 85) (Some 85)) = Zmax init_scalars /\
    Ztop (Scalars 0 0 0 5 (Some 85) (Some 85) (Some 85)) = Ztop init_scalars /\
    Zbot (Scalars 0 0 0 5 (Some 85) (Some 85) (Some 85)) = Zbot init_scalars.
Proof.
  apply (layer_summary_from_ordered [84; 85; 86] [0; 5; 0] None [1%nat] init_scalars);
    [done | apply layer_summary_from_example].
Defined.

Lemma integrate_loop_unset (zs mice : list R) (zmx : R) (k : list nat) (d w : R) :
  Forall (fun i => (i < length zs)%nat /\ (i < length mice)%nat) k ->
  integrate_loop zs mice None zmx k (Some d, w)
  = Ok (Some d, w + d * window_mass zs mice zmx k).
Proof.
  intros Hk. revert w. induction Hk as [|ki k [Hz Hm] _ IH]; intros w.
  - simpl. do 2 f_equal. lra.
  - destruct (lookup_lt_is_Some_2 zs ki Hz) as [zk Hzk].
    destruct (lookup_lt_is_Some_2 mice ki Hm) as [mk Hmk].
    cbn [integrate_loop window_mass foldr]. fold (window_mass zs mice zmx k).
    rewrite Hzk, Hmk. cbn [default from_option]. unfold Datatypes.id.
    destruct (Rgtb zk (zmx - 2)) eqn:E.
    + apply Rgtb_true in E.
      rewrite (integrate_step_unset zs mice zmx ki zk mk d w) by done.
      cbn [mbind result_bind rbind]. rewrite IH. do 2 f_equal. ring.
    + apply Rgtb_false in E.
      rewrite (integrate_step_outside zs mice None zmx ki zk (Some d, w)) by done.
      cbn [mbind result_bind rbind]. rewrite IH. do 2 f_equal. ring.
Qed.

(** X16: with [constdz] unset, [iwc] grows by the spacing of the first two
    samples, [|z[1] - z[0]|], times the sum of [m_ice] over the selected
    levels with [z > zmax - 2]. *)
Theorem integrate_unset_closed_form (zs mice : list R) (zmx : R) (k : list nat)
    (w z0 z1 : R) :
  zs !! 0%nat = Some z0 -> zs !! 1%nat = Some z1 ->
  Forall (fun i => (i < length zs)%nat /\ (i < length mice)%nat) k ->
  integrate zs mice None zmx k w
  = Ok (w + Rabs (z1 - z0) * window_mass zs mice zmx k).
Proof.
  intros H0 H1 Hk. unfold integrate.
  rewrite (proj2 (index_Ok _ _ _) H1), (proj2 (index_Ok _ _ _) H0).
  cbn [mbind result_bind rbind].
  by rewrite integrate_loop_unset.
Qed.

Lemma integrate_unset_closed_form_witness :
  integrate [70; 81; 82; 84; 100] [0; 1; 2; 1; 0] None 82 [1; 2; 3]%nat 0
  = Ok (0 + Rabs (81 - 70)
            * window_mass [70; 81; 82; 84; 100] [0; 1; 2; 1; 0] 82 [1; 2; 3]%nat).
Proof.
  apply (integrate_unset_closed_form [70; 81; 82; 84; 100] [0; 1; 2; 1; 0] 82
           [1; 2; 3]%nat 0 70 81); [reflexivity | reflexivity |].
  repeat constructor; simpl; lia.
Defined.

Lemma integrate_loop_set (zs mice : list R) (c zmx : R) (k : list nat)
    (st : option R * R) :
  Forall (fun i => (0 < i)%nat /\ (S i < length zs)%nat /\ (i < length mice)%nat) k ->
  exists d, integrate_loop zs mice (Some c) zmx k st
            = Ok (d, st.2 + window_column zs mice zmx k).
Proof.
  intros Hk. revert st. induction Hk as [|ki k (H0 & Hz & Hm) _ IH]; intros st.
  - exists st.1. simpl. destruct st as [d w]. simpl. do 2 f_equal. lra.
  - destruct (lookup_lt_is_Some_2 zs ki) as [zk Hzk]; [lia|].
    destruct (lookup_lt_is_Some_2 zs (S ki) Hz) as [a Ha].
    destruct (lookup_lt_is_Some_2 zs (pred ki)) as [b Hb]; [lia|].
    destruct (lookup_lt_is_Some_2 mice ki Hm) as [mk Hmk].
    cbn [integrate_loop window_column foldr]. fold (window_column zs mice zmx k).
    rewrite Hzk, Hmk, Ha, Hb. cbn [default from_option]. unfold Datatypes.id.
    destruct (Rgtb zk (zmx - 2)) eqn:E.
    + apply Rgtb_true in E.
      rewrite (integrate_step_set zs mice c zmx ki zk mk (Rabs (a - b) * 0.5) st)
        by (done || by apply centered_dz_interior).
      cbn [mbind result_bind rbind].
      destruct (IH (Some (Rabs (a - b) * 0.5), st.2 + mk * (Rabs (a - b) * 0.5)))
        as [d ->].
      exists d. cbn [snd]. do 2 f_equal. ring.
    + apply Rgtb_false in E.
      rewrite (integrate_step_outside zs mice (Some c) zmx ki zk st) by done.
      cbn [mbind result_bind rbind].
      destruct (IH st) as [d ->]. exists d. do 2 f_equal. ring.
Qed.

(** X17: with [constdz] set and all selected levels strictly inside the
    profile, [iwc] grows by the sum over the selected levels with
    [z > zmax - 2] of [m_ice[i] * |z[i+1] - z[i-1]| / 2]; the value of
    [constdz] plays no part. *)
Theorem integrate_set_closed_form (zs mice : list R) (c zmx : R) (k : list nat)
    (w : R) :
  Forall (fun i => (0 < i)%nat /\ (S i < length zs)%nat /\ (i < length mice)%nat) k ->
  integrate zs mice (Some c) zmx k w = Ok (w + window_column zs mice zmx k).
Proof.
  intros Hk. unfold integrate. cbn [mbind result_bind rbind].
  by destruct (integrate_loop_set zs mice c zmx k (None, w) Hk) as [d ->].
Qed.

Lemma integrate_set_closed_form_witness :
  integrate [70; 81; 82; 84; 100] [0; 1; 2; 1; 0] (Some 1) 82 [1; 2; 3]%nat 0
  = Ok (0 + window_column [70; 81; 82; 84; 100] [0; 1; 2; 1; 0] 82 [1; 2; 3]%nat).
Proof.
  apply (integrate_set_closed_form [70; 81; 82; 84; 100] [0; 1; 2; 1; 0] 1 82
           [1; 2; 3]%nat 0).
  repeat constructor; simpl; lia.
Defined.

Lemma centered_dz_nonneg (zs : list R) (ki : nat) (d : R) :
  centered_dz zs ki = Ok d -> 0 <= d.
Proof.
  unfold centered_dz. intros H.
  apply rbind_Ok_inv in H as (a & _ & H).
  apply rbind_Ok_inv in H as (b & _ & H). injection H as <-.
  pose proof (Rabs_pos (a - b)). lra.
Qed.

Lemma integrate_step_nondecreasing (zs mice : list R) (c : option R) (zmx : R)
    (ki : nat) (st st' : option R * R) :
  Forall (fun m => 0 <= m) mice ->
  (forall d, st.1 = Some d -> 0 <= d) ->
  integrate_step zs mice c zmx ki st = Ok st' ->
  (forall d, st'.1 = Some d -> 0 <= d) /\ st.2 <= st'.2.
Proof.
  intros Hm Hd H. unfold integrate_step in H.
  apply rbind_Ok_inv in H as (zk & _ & H).
  destruct (Rgtb zk (zmx - 2)); [|injection H as <-; split; [done | lra]].
  apply rbind_Ok_inv in H as (dz & Hdz & H).
  apply rbind_Ok_inv in H as (mk & Hmk & H).
  apply rbind_Ok_inv in H as (d & Hdd & H). injection H as <-.
  destruct dz as [d'|]; [|done]. injection Hdd as ->.
  assert (0 <= d).
  { destruct c as [c|].
    - apply rbind_Ok_inv in Hdz as (d0 & Hd0 & Hdz). injection Hdz as ->.
      by eapply centered_dz_nonneg.
    - injection Hdz as Hdz. by apply Hd. }
  assert (0 <= mk).
  { apply index_Ok in Hmk. by apply (Forall_lookup_1 _ _ _ _ Hm Hmk). }
  cbn [fst snd]. split; [by intros ? [= <-] | nra].
Qed.

Lemma integrate_loop_nondecreasing (zs mice : list R) (c : option R) (zmx : R)
    (k : list nat) (st st' : option R * R) :
  Forall (fun m => 0 <= m) mice ->
  (forall d, st.1 = Some d -> 0 <= d) ->
  integrate_loop zs mice c zmx k st = Ok st' ->
  st.2 <= st'.2.
Proof.
  intros Hm. revert st. induction k as [|ki k IH]; intros st Hd H.
  - injection H as <-. lra.
  - cbn [integrate_loop] in H. apply rbind_Ok_inv in H as (st1 & H1 & H).
    destruct (integrate_step_nondecreasing _ _ _ _ _ _ _ Hm Hd H1) as [Hd1 Hle].
    specialize (IH st1 Hd1 H). lra.
Qed.

(** X18: with non-negative ice mass densities a successful integration
    returns an [iwc] that is at least the one it started from, in both
    modes. *)
Theorem integrate_nondecreasing (zs mice : list R) (c : option R) (zmx : R)
    (k : list nat) (w w' : R) :
  Forall (fun m => 0 <= m) mice ->
  integrate zs mice c zmx k w = Ok w' ->
  w <= w'.
Proof.
  intros Hm H. unfold integrate in H.
  apply rbind_Ok_inv in H as (dz0 & Hdz & H).
  apply rbind_Ok_inv in H as (st & Hst & H). injection H as <-.
  apply (integrate_loop_nondecreasing _ _ _ _ _ _ _ Hm) in Hst; [done|].
  cbn [fst]. intros d ->. destruct c as [c|]; [done|].
  apply rbind_Ok_inv in Hdz as (z1 & _ & Hdz).
  apply rbind_Ok_inv in Hdz as (z0 & _ & Hdz). injection Hdz as <-.
  apply Rabs_pos.
Qed.

Lemma integrate_nondecreasing_witness :
  0 <= 0 + window_column [70; 81; 82; 84; 100] [0; 1; 2; 1; 0] 82 [1; 2; 3]%nat.
Proof.
  apply (integrate_nondecreasing [70; 81; 82; 84; 100] [0; 1; 2; 1; 0] (Some 1) 82
           [1; 2; 3]%nat).
  - repeat constructor; lra.
  - unfold integrate. cbn [mbind result_bind rbind].
    destruct (integrate_loop_set [70; 81; 82; 84; 100] [0; 1; 2; 1; 0] 1 82
                [1; 2; 3]%nat (None, 0)) as [d ->]; [|reflexivity].
    repeat constructor; simpl; lia.
Defined.

(** X19: on a profile of a single level that is selected, the block under
    [if (nk > 0)] always raises [IndexError]: [z[1]] does not exist, neither
    for [abs(z[1] - z[0])] nor for the centered difference. *)
Theorem single_level_layer_index_error (z0 m0 : R) (c : option R) (sc : scalars) :
  layer_summary_from [z0] [m0] c [0%nat] sc = Raise IndexError.
Proof.
  unfold layer_summary_from, peak_altitude.
  change (take_idx [m0] [0%nat]) with (Ok [m0] : result (list R)).
  change (take_idx [z0] [0%nat]) with (Ok [z0] : result (list R)).
  cbn [mbind result_bind rbind py_max py_min fold_left fmap list_fmap].
  rewrite Reqb_refl.
  cbn [nonzero nonzero_from head mbind result_bind rbind].
  change ([0%nat] !! 0%nat) with (Some 0%nat).
  cbn [mbind result_bind rbind].
  rewrite (proj2 (index_Ok [z0] 0 z0)) by done.
  cbn [mbind result_bind rbind].
  destruct c as [c|].
  - unfold integrate. cbn [mbind result_bind rbind integrate_loop].
    rewrite (integrate_step_set_raises [z0] [m0] c z0 0 z0 IndexError)
      by (done || lra || by apply centered_dz_last).
    reflexivity.
  - reflexivity.
Qed.

(** ** Instances on concrete levels *)

Lemma exp_neg_bound (y : R) : 0 < y -> exp (- y) < / (1 + y).
Proof.
  intros Hy. rewrite exp_Ropp.
  apply Rinv_lt_contravar.
  - apply Rmult_lt_0_compat; [lra | apply exp_pos].
  - apply exp_ineq1. lra.
Qed.

(** The saturation pressure of selector 3 at 100 K is below 3e-4 mb. *)
Lemma marti_mauersberger_100 : spec_marti_mauersberger 100 < 0.0003.
Proof.
  unfold spec_marti_mauersberger.
  replace (28.868 - 6132.935 / 100) with (Ropp 32.46135) by lra.
  pose proof (exp_neg_bound 32.46135 ltac:(lra)) as H.
  assert (/ (1 + 32.46135) < 0.03).
  { rewrite <- (Rinv_inv 0.03). apply Rinv_lt_contravar; [|lra].
    apply Rmult_lt_0_compat; [apply Rinv_0_lt_compat|]; lra. }
  lra.
Qed.

Lemma level_saturation_ratio_witness :
  exists pice hsat sice,
    p_ice (level example_profile 3 1 (init_store 2)).1 !! 1%nat = Some pice /\
    h2o_sat (level example_profile 3 1 (init_store 2)).1 !! 1%nat = Some hsat /\
    s_ice (level example_profile 3 1 (init_store 2)).1 !! 1%nat = Some sice /\
    hsat = 1.0e6 * pice / 1000 /\ hsat * 1000 = 1.0e6 * pice /\ sice * hsat = 8.
Proof.
  apply (level_saturation_ratio example_profile 3 spec_marti_mauersberger 2 1 100
           1000 8 (init_store 2));
    [reflexivity | reflexivity | lra | reflexivity | lra | reflexivity
    | apply init_store_allocated | lia].
Defined.

Lemma level_supersaturated_witness :
  exists hsat sice ice m v,
    h2o_sat (level example_profile 3 1 (init_store 2)).1 !! 1%nat = Some hsat /\
    s_ice (level example_profile 3 1 (init_store 2)).1 !! 1%nat = Some sice /\
    h2o_ice (level example_profile 3 1 (init_store 2)).1 !! 1%nat = Some ice /\
    m_ice (level example_profile 3 1 (init_store 2)).1 !! 1%nat = Some m /\
    v_ice (level example_profile 3 1 (init_store 2)).1 !! 1%nat = Some v /\
    ice + hsat = 8 /\ 0 < ice /\ 1 < sice /\
    m = 1e9 * (1000 * 1.0e2 * ice * 1.0e-6 / (R_gas * 100)) * Mww /\
    0 < m /\ m = 1000 * di * v.
Proof.
  apply (level_supersaturated example_profile 3 spec_marti_mauersberger 2 1 100
           1000 8 (init_store 2));
    [reflexivity | reflexivity | lra | reflexivity | lra | reflexivity
    | apply init_store_allocated | lia |].
  pose proof marti_mauersberger_100. lra.
Defined.

Lemma level_subsaturated_witness :
  h2o_ice (level (Profile [85] [100] [1000] [0]) 3 0 (init_store 1)).1
    = h2o_ice (init_store 1) /\
  m_ice (level (Profile [85] [100] [1000] [0]) 3 0 (init_store 1)).1
    = m_ice (init_store 1) /\
  v_ice (level (Profile [85] [100] [1000] [0]) 3 0 (init_store 1)).1
    = v_ice (init_store 1) /\
  exists sice,
    s_ice (level (Profile [85] [100] [1000] [0]) 3 0 (init_store 1)).1 !! 0%nat
      = Some sice /\ sice <= 1.
Proof.
  apply (level_subsaturated (Profile [85] [100] [1000] [0]) 3
           spec_marti_mauersberger 1 0 100 1000 0 (init_store 1));
    [reflexivity | reflexivity | lra | reflexivity | lra | reflexivity
    | apply init_store_allocated | lia |].
  pose proof (sat_pressure_pos 3 spec_marti_mauersberger 100 eq_refl).
  unfold Rdiv. lra.
Defined.

Lemma level_writes_own_index_witness :
  same_at 0 (init_store 2) (level example_profile 3 1 (init_store 2)).1.
Proof. apply (level_writes_own_index example_profile 3 0 1 (init_store 2)). lia. Defined.

Lemma level_loop_stops_at_first_positive_witness :
  level_loop example_profile 3 (seq 0 2) (init_store 2)
    = (after_level spec_marti_mauersberger 1 100 1000 8 (init_store 2), Raise TypeError) /\
  forall j, j <> 1%nat ->
    same_at j (init_store 2) (level_loop example_profile 3 (seq 0 2) (init_store 2)).1.
Proof.
  apply (level_loop_stops_at_first_positive example_profile 3 spec_marti_mauersberger
           1 100 1000 8 (init_store 2));
    [reflexivity | apply init_store_allocated | simpl; lia | | reflexivity | lra
    | reflexivity | lra | reflexivity].
  intros j Hj. assert (j = 0%nat) as -> by lia. exists 0. split; [reflexivity | lra].
Defined.

Lemma after_allocation_type_error_witness :
  after_allocation example_profile 3 None (init_store 2) = Raise TypeError.
Proof.
  apply (after_allocation_type_error example_profile 3 None (init_store 2));
    [lia | done | done | done | apply init_store_allocated].
Defined.

Lemma level_unbound_table_witness :
  (level example_profile 0 1 (init_store 2)).2 = Raise NameError /\
  p_ice (level example_profile 0 1 (init_store 2)).1 = p_ice (init_store 2) /\
  t_ice (level example_profile 0 1 (init_store 2)).1 = t_ice (init_store 2).
Proof.
  apply (level_unbound_table example_profile 0 2 1 100 1000 8 (init_store 2));
    [lia | reflexivity | lra | reflexivity | reflexivity
    | apply init_store_allocated | lia].
Defined.

Lemma bracket_found_iff_in_range_witness :
  let f := fun T : R => 0.01 * exp (28.868 - 6132.935 / T) in
  (exists p1 t1 p2 t2,
      bracket_below (f <$> tx) tx 1 = Ok (VFloat p1, VFloat t1) /\
      bracket_above (f <$> tx) tx 1 = Ok (VFloat p2, VFloat t2))
  <-> f (INR 0 * 3 + 50) < 1 <= f (INR 299 * 3 + 50).
Proof.
  intros f.
  apply (bracket_found_iff_in_range 3 (f <$> tx) 1 (f (INR 0 * 3 + 50))
           (f (INR 299 * 3 + 50))); reflexivity.
Defined.

Lemma bracket_adjacent_rows_witness :
  let f := fun T : R => 0.01 * exp (28.868 - 6132.935 / T) in
  let T0 := INR 0 * 3 + 50 in
  let T1 := INR 1 * 3 + 50 in
  (exists k, (f <$> tx) !! k = Some (f T0) /\ (f <$> tx) !! S k = Some (f T1) /\
             T0 = INR k * 3 + 50 /\ T1 = T0 + 3) /\
  forall x, x ∈ f <$> tx -> x <= f T0 \/ f T1 <= x.
Proof.
  intros f T0 T1.
  apply (bracket_adjacent_rows 3 (f <$> tx) (f T1) (f T0) T0 (f T1) T1).
  - reflexivity.
  - apply (bracket_below_exact 3 (f <$> tx) 0 (f T0) (f T1)); reflexivity.
  - apply (bracket_above_exact 3 (f <$> tx) 1 (f T1)); reflexivity.
Defined.

(** ** The round trip and the skipped levels in the routine *)

(** C6: for every table index [k = 1..299] and a level whose partial
    pressure is the table pressure [P_k], the search finds the bracket
    [(P_(k-1), T_(k-1))], [(P_k, T_k)], the four conditions of the guard
    hold jointly and the interpolation expression evaluates, over the reals,
    to [T_k]; yet the loop body raises [TypeError] at the guard and leaves
    [t_ice] as it was, so [T_k] is never stored. *)
Theorem roundtrip_lost_to_guard (pr : profile) (vpop : Z) (f : R -> R)
    (n i k : nat) (ti pi hi : R) (s : store) :
  sat_pressure vpop = Some f ->
  (1 <= k < 300)%nat ->
  t pr !! i = Some ti -> 0 < ti ->
  p pr !! i = Some pi -> h2o pr !! i = Some hi ->
  pi * hi * 1.0e-6 = f (INR k * 3 + 50) ->
  allocated n s -> (i < n)%nat ->
  let Tj := INR (k - 1) * 3 + 50 in
  let Tk := INR k * 3 + 50 in
  let p_h2o := pi * hi * 1.0e-6 in
  bracket_below (f <$> tx) tx p_h2o = Ok (VFloat (f Tj), VFloat Tj) /\
  bracket_above (f <$> tx) tx p_h2o = Ok (VFloat (f Tk), VFloat Tk) /\
  spec_frost_guard (f <$> tx) p_h2o (f Tj) (f Tk) = true /\
  interp (f Tj) Tj (f Tk) Tk p_h2o = Tk /\
  (level pr vpop i s).2 = Raise TypeError /\
  t_ice (level pr vpop i s).1 = t_ice s.
Proof.
  intros Hf Hk Ht Hpos Hp Hh Hv Ha Hi Tj Tk p_h2o.
  assert (Hpx : px vpop = Some (f <$> tx)) by (unfold px; by rewrite Hf).
  destruct k as [|k]; [lia|].
  assert (HTj : Tj = INR k * 3 + 50) by (unfold Tj; repeat f_equal; lia).
  assert (Hj : (f <$> tx) !! k = Some (f Tj)).
  { rewrite list_lookup_fmap, (proj2 (tx_lookup k (INR k * 3 + 50))) by (split; [lia|done]).
    by rewrite HTj. }
  assert (Hk' : (f <$> tx) !! S k = Some (f Tk)).
  { by rewrite list_lookup_fmap, (proj2 (tx_lookup (S k) Tk)) by (split; [lia|done]). }
  unfold p_h2o. rewrite Hv. fold Tk.
  split; [|split; [|split; [|split; [|split]]]].
  - rewrite HTj at 2. by apply (bracket_below_exact vpop).
  - by apply (bracket_above_exact vpop).
  - by apply (spec_frost_guard_exact vpop _ k).
  - apply interp_exact. unfold Tk. pose proof (pos_INR (S k)). lra.
  - by rewrite (level_processed pr vpop f n i ti pi hi s).
  - rewrite (level_processed pr vpop f n i ti pi hi s) by done.
    by destruct (after_level_lookups f n i ti pi hi s Ha Hi) as (H & _).
Qed.

Lemma roundtrip_lost_to_guard_witness :
  let f := fun T : R => 0.01 * exp (28.868 - 6132.935 / T) in
  let pr := Profile [85] [140] [f (INR 1 * 3 + 50)] [1.0e6] in
  let Tj := INR (1 - 1) * 3 + 50 in
  let Tk := INR 1 * 3 + 50 in
  let p_h2o := f (INR 1 * 3 + 50) * 1.0e6 * 1.0e-6 in
  bracket_below (f <$> tx) tx p_h2o = Ok (VFloat (f Tj), VFloat Tj) /\
  bracket_above (f <$> tx) tx p_h2o = Ok (VFloat (f Tk), VFloat Tk) /\
  spec_frost_guard (f <$> tx) p_h2o (f Tj) (f Tk) = true /\
  interp (f Tj) Tj (f Tk) Tk p_h2o = Tk /\
  (level pr 3 0 (init_store 1)).2 = Raise TypeError /\
  t_ice (level pr 3 0 (init_store 1)).1 = t_ice (init_store 1).
Proof.
  intros f pr.
  apply (roundtrip_lost_to_guard pr 3 f 1 0 1 140 (f (INR 1 * 3 + 50)) 1.0e6
           (init_store 1));
    [reflexivity | lia | reflexivity | lra | reflexivity | reflexivity
    | unfold f; lra | apply init_store_allocated | lia].
Defined.

(** C8: on a profile whose first level has [T = 0], with selector 1, the
    allocation of line 71 raises [AttributeError]: no output array exists
    and the routine returns nothing.  Run from the arrays those lines are
    written to allocate, the loop does leave the defaults of the skipped
    level in place, but it stops with [TypeError] at the next level and the
    stages after the allocation return nothing either. *)
Theorem defaults_never_returned :
  let pr := Profile [85; 86] [0; 140] [0.01; 0.01] [8; 8] in
  allocate 2 = Raise AttributeError /\
  pmc_0d_model2b pr 1 None = Raise AttributeError /\
  default_at 0 (level_loop pr 1 (seq 0 2) (init_store 2)).1 /\
  (level_loop pr 1 (seq 0 2) (init_store 2)).2 = Raise TypeError /\
  after_allocation pr 1 None (init_store 2) = Raise TypeError.
Proof.
  intros pr.
  assert (H : (level_loop pr 1 (seq 0 2) (init_store 2)).2 = Raise TypeError).
  { change (seq 0 2) with [0; 1]%nat. cbn [level_loop].
    unfold mbind at 1, M_bind at 1, m_bind at 1.
    rewrite (level_skipped pr 1 0 0) by (done || lra).
    unfold mbind at 1, M_bind at 1, m_bind at 1.
    pose proof (level_raises_type_error pr 1 1 140 0.01 8 (init_store 2)
                  ltac:(lia) eq_refl ltac:(lra) eq_refl eq_refl
                  ltac:(simpl; lia) ltac:(simpl; lia)) as E.
    destruct (level pr 1 1 (init_store 2)) as [s' [[]|e]]; simpl in *; congruence. }
  split; [reflexivity|]. split; [reflexivity|].
  split.
  { apply (level_loop_keeps_defaults pr 1 0 0); [done | lra |].
    apply init_store_default. lia. }
  split; [exact H|].
  unfold after_allocation. change (length (z pr)) with 2%nat.
  destruct (level_loop pr 1 (seq 0 2) (init_store 2)) as [s' [[]|e]];
    simpl in *; congruence.
Qed.

(** X20: the loop over altitude never writes a level whose temperature is
    not positive: whatever the arrays it starts from, the levels it runs
    over and the point where it stops, the seven entries of that level are
    what they were before the loop. *)
Theorem skipped_level_untouched (pr : profile) (vpop : Z) (i : nat) (ti : R)
    (levels : list nat) (s : store) :
  t pr !! i = Some ti -> ti <= 0 ->
  same_at i s (level_loop pr vpop levels s).1.
Proof.
  intros Ht Hle.
  apply (preserves_run (same_at i s)); [|done].
  apply level_loop_preserves. intros j _.
  destruct (decide (i = j)) as [<-|Hne].
  - intros s' Hs. by rewrite (level_skipped pr vpop i ti s').
  - by apply level_same_at.
Qed.

Lemma skipped_level_untouched_witness :
  same_at 0 (init_store 2) (level_loop example_profile 3 (seq 0 2) (init_store 2)).1.
Proof.
  apply (skipped_level_untouched example_profile 3 0 0 (seq 0 2) (init_store 2));
    [reflexivity | lra].
Defined.
